(** * courier: response dispatch and OpenAPI document scanning

    A shallow embedding of two files of the courier repository:

    - [pkg/courierhttp/payload.go]: the response envelope [response[T]],
      its setters, [Wrap] and the dispatcher [WriteResponse];
    - the OpenAPI scanner (package [openapi]): [FromRouter], [scan],
      [patchPath], [RegisterSchema], [scanResponse] and
      [scanParameterOrRequestBody].

    Go maps are [gmap]s, slices are lists, nilable pointers and interface
    values are [option]s, [int] is [Z].  A Go interface value is a record
    of the capabilities (method sets) the code asks for with type
    assertions.  Calls on the [http.ResponseWriter] are recorded as a
    trace of [Event]s in program order.  A [panic] is the [Panicked]
    outcome. *)

From Stdlib Require Import ZArith String Ascii List Permutation Lia.
From stdpp Require Import base gmap strings list fin_maps.
Import ListNotations.

Local Open Scope Z_scope.

(** ** Go standard library pieces used by the two files *)

Module gostrings.

(** [strings.TrimLeft(s, cutset)]: drops every leading byte of [s] that
    occurs in [cutset]. *)
Fixpoint contains (cutset : string) (c : ascii) : bool :=
  match cutset with
  | EmptyString => false
  | String d rest => if Ascii.eqb c d then true else contains rest c
  end.

Fixpoint TrimLeft (s cutset : string) : string :=
  match s with
  | EmptyString => EmptyString
  | String c rest => if contains cutset c then TrimLeft rest cutset else s
  end.

(** [strings.TrimPrefix(s, prefix)], for comparison with [TrimLeft]. *)
Fixpoint TrimPrefix_aux (s prefix : string) : option string :=
  match prefix with
  | EmptyString => Some s
  | String p prefix' =>
      match s with
      | EmptyString => None
      | String c rest => if Ascii.eqb c p then TrimPrefix_aux rest prefix' else None
      end
  end.

Definition TrimPrefix (s prefix : string) : string :=
  match TrimPrefix_aux s prefix with Some r => r | None => s end.

(** [strings.Split(s, sep)] for a one-byte separator: the pieces between
    occurrences of [sep]; never empty. *)
Fixpoint Split1 (s : string) (sep : ascii) : list string :=
  match s with
  | EmptyString => [EmptyString]
  | String c rest =>
      if Ascii.eqb c sep then EmptyString :: Split1 rest sep
      else match Split1 rest sep with
           | [] => [String c EmptyString]
           | piece :: pieces => String c piece :: pieces
           end
  end.

(** [xs[0]] and [xs[len(xs)-1]] on a slice known to be non-empty. *)
Definition first (xs : list string) : string := hd EmptyString xs.
Definition final (xs : list string) : string := List.last xs EmptyString.

(** [s] has no byte [c]. *)
Fixpoint lacks (c : ascii) (s : string) : bool :=
  match s with
  | EmptyString => true
  | String d rest => negb (Ascii.eqb d c) && lacks c rest
  end.

End gostrings.

Module textproto.

Definition isLower (c : ascii) : bool :=
  let n := nat_of_ascii c in (97 <=? n)%nat && (n <=? 122)%nat.
Definition isUpper (c : ascii) : bool :=
  let n := nat_of_ascii c in (65 <=? n)%nat && (n <=? 90)%nat.
Definition isDigit (c : ascii) : bool :=
  let n := nat_of_ascii c in (48 <=? n)%nat && (n <=? 57)%nat.

(** [validHeaderFieldByte]: the token bytes of RFC 7230. *)
Definition validHeaderFieldByte (c : ascii) : bool :=
  isLower c || isUpper c || isDigit c
  || gostrings.contains "!#$%&'*+-.^_`|~" c.

Fixpoint allValid (s : string) : bool :=
  match s with
  | EmptyString => true
  | String c rest => validHeaderFieldByte c && allValid rest
  end.

Definition toUpper (c : ascii) : ascii :=
  if isLower c then ascii_of_nat (nat_of_ascii c - 32) else c.
Definition toLower (c : ascii) : ascii :=
  if isUpper c then ascii_of_nat (nat_of_ascii c + 32) else c.

Fixpoint canonical (upper : bool) (s : string) : string :=
  match s with
  | EmptyString => EmptyString
  | String c rest =>
      let c' := if upper then toUpper c else toLower c in
      String c' (canonical (Ascii.eqb c' "-") rest)
  end.

(** [textproto.CanonicalMIMEHeaderKey]: a key with a byte that is not a
    token byte is returned unchanged; otherwise the first letter and
    every letter after a hyphen are upper-cased, the others lower-cased. *)
Definition CanonicalMIMEHeaderKey (s : string) : string :=
  if allValid s then canonical true s else s.

End textproto.

(** ** Package courierhttp (pkg/courierhttp/payload.go) *)

Module courierhttp.

Definition Err := string.
Definition URL := string.
Definition Cookie := string.
Definition RType := string.

Definition StatusNoContent : Z := 204.
Definition StatusCreated : Z := 201.
Definition StatusOK : Z := 200.
Definition MethodPost : string := "POST".

(** The part of the [Request] interface the dispatcher reads. *)
Record Request := mkRequest {
  Method : string;
  Path : string
}.

(** A non-nil Go value of static type [any], seen through the type
    assertions of [WriteResponse]: each field says whether the dynamic
    type has the method set of one interface and, if so, what the
    method returns. *)
Record Value := mkValue {
  (** [reflect.TypeOf(v)] *)
  val_type : RType;
  (** [ResponseWriter]: the error its own [WriteResponse] returns *)
  val_WriteResponse : option (Request -> option Err);
  (** [error] *)
  val_isError : bool;
  (** [StatusCode() int] *)
  val_StatusCode : option Z;
  (** [Location() *url.URL], which may return nil *)
  val_Location : option (option URL);
  (** [ContentType() string] *)
  val_ContentType : option string;
  (** [courier.Result]: the error of [Into(rw)] *)
  val_Into : option (option Err);
  (** [io.Reader]: the error of [io.Copy(rw, v)] *)
  val_Read : option (option Err);
  (** [io.Closer] *)
  val_isCloser : bool
}.

(** [resp.(StatusCodeDescriber)] *)
Definition asStatusCodeDescriber (resp : option Value) : option Z :=
  match resp with
  | Some x => val_StatusCode x
  | None => None
  end.

(** [resp.(RedirectDescriber)]: the interface embeds
    [StatusCodeDescriber] and adds [Location]. *)
Definition asRedirectDescriber (resp : option Value) : option (Z * option URL) :=
  match resp with
  | Some x =>
      match val_StatusCode x, val_Location x with
      | Some code, Some loc => Some (code, loc)
      | _, _ => None
      end
  | None => None
  end.

(** [r.v.(ResponseWriter)] *)
Definition asResponseWriter (x : option Value) : option (Request -> option Err) :=
  match x with
  | Some x => val_WriteResponse x
  | None => None
  end.

(** What [statuserror.FromErr] returns, as far as the two files use it:
    [StatusCode()], [Summary()], and the remaining capabilities of the
    result once it is stored in an [any]. *)
Record StatusErr := mkStatusErr {
  se_StatusCode : Z;
  se_Summary : string;
  se_rest : Value
}.

(** [resp = statuserror.FromErr(err)]: the status error as an [any]. *)
Definition box (e : StatusErr) : Value :=
  let x := se_rest e in
  {| val_type := val_type x;
     val_WriteResponse := val_WriteResponse x;
     val_isError := val_isError x;
     val_StatusCode := Some (se_StatusCode e);
     val_Location := val_Location x;
     val_ContentType := val_ContentType x;
     val_Into := val_Into x;
     val_Read := val_Read x;
     val_isCloser := val_isCloser x |}.

(** [transformer.Transformer], as used here and by the scanner. *)
Record Transformer := mkTransformer {
  Names : list string;
  (** [EncodeTo(ContextWithStatusCode(ctx, status), rw, resp)] *)
  EncodeTo : Z -> option Err
}.

(** The collaborators of the dispatcher that live outside the file. *)
Record Collaborators := mkCollaborators {
  (** [statuserror.FromErr] *)
  FromErr : Value -> StatusErr;
  (** [transformer.NewTransformer(ctx, FromRType(reflect.TypeOf(resp)),
      Option{MIME: mime})] *)
  NewTransformer : option RType -> string -> Err + Transformer;
  (** the order in which [range r.meta] visits the map *)
  rangeMeta : gmap string (list string) -> list (string * list string);
  rangeMeta_perm : forall m, rangeMeta m ≡ₚ map_to_list m
}.

(** [type response[T any] struct] *)
Record response := mkResponse {
  v : option Value;
  meta : option (gmap string (list string));
  cookies : list (option Cookie);
  location : option URL;
  contentType : string;
  statusCode : Z
}.

Definition set_v (x : option Value) (r : response) : response :=
  mkResponse x (meta r) (cookies r) (location r) (contentType r) (statusCode r).

Definition SetStatusCode (code : Z) (r : response) : response :=
  mkResponse (v r) (meta r) (cookies r) (location r) (contentType r) code.

Definition SetContentType (ct : string) (r : response) : response :=
  mkResponse (v r) (meta r) (cookies r) (location r) ct (statusCode r).

Definition SetMetadata (key : string) (values : list string) (r : response) : response :=
  let m := match meta r with Some m => m | None => ∅ end in
  mkResponse (v r) (Some (<[key := values]> m)) (cookies r) (location r)
             (contentType r) (statusCode r).

Definition SetCookies (cs : list (option Cookie)) (r : response) : response :=
  mkResponse (v r) (meta r) cs (location r) (contentType r) (statusCode r).

Definition SetLocation (loc : option URL) (r : response) : response :=
  mkResponse (v r) (meta r) (cookies r) loc (contentType r) (statusCode r).

Definition StatusCode (r : response) : Z := statusCode r.
Definition ContentType (r : response) : string := contentType r.
Definition Cookies (r : response) : list (option Cookie) := cookies r.
Definition Meta (r : response) : option (gmap string (list string)) := meta r.

(** [r.v.(T)]: the assertion panics on a nil interface value, which is
    the [None] result. *)
Definition Underlying (r : response) : option Value := v r.

(** [type ResponseSetting interface]: one call of one of its methods. *)
Inductive SetterCall :=
| CallSetStatusCode (code : Z)
| CallSetLocation (loc : option URL)
| CallSetContentType (ct : string)
| CallSetMetadata (key : string) (values : list string)
| CallSetCookies (cs : list (option Cookie)).

Definition call (c : SetterCall) (r : response) : response :=
  match c with
  | CallSetStatusCode code => SetStatusCode code r
  | CallSetLocation loc => SetLocation loc r
  | CallSetContentType ct => SetContentType ct r
  | CallSetMetadata key values => SetMetadata key values r
  | CallSetCookies cs => SetCookies cs r
  end.

(** [type ResponseSettingFunc = func(s ResponseSetting)]. The interface
    has setters only, so a function of this type is the sequence of calls
    it makes on [s]. *)
Definition ResponseSettingFunc := list SetterCall.

Definition apply (opt : ResponseSettingFunc) (r : response) : response :=
  fold_left (fun r c => call c r) opt r.

Definition WithStatusCode (code : Z) : ResponseSettingFunc := [CallSetStatusCode code].
Definition WithCookies (cs : list (option Cookie)) : ResponseSettingFunc := [CallSetCookies cs].
Definition WithContentType (ct : string) : ResponseSettingFunc := [CallSetContentType ct].
Definition WithMetadata (key : string) (values : list string) : ResponseSettingFunc :=
  [CallSetMetadata key values].

Definition Wrap (x : option Value) (opts : list ResponseSettingFunc) : response :=
  fold_left (fun resp opt => apply opt resp) opts
            (mkResponse x None [] None EmptyString 0).

(** Calls made on the [http.ResponseWriter], in program order. *)
Inductive Event :=
| Delegated                                    (* respWriter.WriteResponse(ctx, rw, req) *)
| HeaderAssign (key : string) (values : list string)  (* rw.Header()[key] = values *)
| SetCookie (c : Cookie)                       (* http.SetCookie(rw, c) *)
| HttpRedirect (url : URL) (code : Z)          (* http.Redirect(rw, req, url, code) *)
| WriteHeader (code : Z)                       (* rw.WriteHeader(code) *)
| HeaderSet (key value : string)               (* rw.Header().Set(key, value) *)
| Into                                         (* v.Into(rw) *)
| Copy                                         (* io.Copy(rw, v) *)
| Close                                        (* c.Close() *)
| Encode (t : option RType) (mime : string) (code : Z). (* tf.EncodeTo(..., rw, resp) *)

(** What one call of [WriteResponse] leaves behind: the envelope, the
    calls on the writer and the returned error. *)
Record Dispatched := mkDispatched {
  envelope : response;
  trace : list Event;
  returned : option Err
}.

Section Dispatch.
Variable C : Collaborators.

(** lines 178-182 *)
Definition convert (x : option Value) : option Value :=
  match x with
  | Some err => if val_isError err then Some (box (FromErr C err)) else Some err
  | None => None
  end.

(** lines 184-186 *)
Definition adoptStatus (resp : option Value) (r : response) : response :=
  match asStatusCodeDescriber resp with
  | Some code => SetStatusCode code r
  | None => r
  end.

(** lines 188-198 *)
Definition defaultStatus (resp : option Value) (req : Request) (r : response) : response :=
  if statusCode r =? 0 then
    match resp with
    | None => SetStatusCode StatusNoContent r
    | Some _ =>
        if String.eqb (Method req) MethodPost
        then SetStatusCode StatusCreated r
        else SetStatusCode StatusOK r
    end
  else r.

(** lines 200-205 *)
Definition adoptRedirect (resp : option Value) (r : response) : response :=
  match location r with
  | None =>
      match asRedirectDescriber resp with
      | Some (code, loc) => SetLocation loc (SetStatusCode code r)
      | None => r
      end
  | Some _ => r
  end.

(** lines 178-205: the envelope once status and location are resolved *)
Definition resolved (r : response) (req : Request) : response :=
  let resp := convert (v r) in
  adoptRedirect resp (defaultStatus resp req (adoptStatus resp r)).

(** lines 207-212 *)
Definition writeMeta (r : response) : list Event :=
  match meta r with
  | Some m =>
      map (fun kv => HeaderAssign (textproto.CanonicalMIMEHeaderKey (fst kv)) (snd kv))
          (rangeMeta C m)
  | None => []
  end.

(** lines 214-221 *)
Definition writeCookies (r : response) : list Event :=
  flat_map (fun c => match c with Some c => [SetCookie c] | None => [] end)
           (cookies r).

(** lines 233-235 *)
Definition writeContentType (r : response) : list Event :=
  if String.eqb (contentType r) EmptyString then []
  else [HeaderSet "Content-Type" (contentType r)].

(** lines 237-264: the type switch on [resp] *)
Definition writeBody (resp : option Value) (r : response) : list Event * option Err :=
  let other :=
    let t := option_map val_type resp in
    match NewTransformer C t (contentType r) with
    | inl err => ([], Some err)
    | inr tf => ([Encode t (contentType r) (statusCode r)], EncodeTo tf (statusCode r))
    end in
  match resp with
  | Some x =>
      match val_Into x with
      | Some err => ([WriteHeader (statusCode r); Into], err)
      | None =>
          match val_Read x with
          | Some err =>
              ([WriteHeader (statusCode r); Copy]
                 ++ (if val_isCloser x then [Close] else []), err)
          | None => other
          end
      end
  | None => other
  end.

(** lines 174-264, before the deferred function runs *)
Definition writeResponse (r : response) (req : Request) : Dispatched :=
  match asResponseWriter (v r) with
  | Some respWriter => mkDispatched r [Delegated] (respWriter req)
  | None =>
      let resp := convert (v r) in
      let r := adoptStatus resp r in
      let r := defaultStatus resp req r in
      let r := adoptRedirect resp r in
      let headers := writeMeta r ++ writeCookies r in
      match location r with
      | Some url => mkDispatched r (headers ++ [HttpRedirect url (statusCode r)]) None
      | None =>
          if statusCode r =? StatusNoContent
          then mkDispatched r (headers ++ [WriteHeader (statusCode r)]) None
          else
            let (body, err) := writeBody resp r in
            mkDispatched r (headers ++ writeContentType r ++ body) err
      end
  end.

(** [func (r *response[T]) WriteResponse]: the body, then the deferred
    [r.v = nil]. *)
Definition WriteResponse (r : response) (req : Request) : Dispatched :=
  let d := writeResponse r req in
  mkDispatched (set_v None (envelope d)) (trace d) (returned d).

End Dispatch.

(** *** Vocabulary for the statements about the dispatcher *)

(** The status code an event sends to the client, if it sends one. *)
Definition statusOf (ev : Event) : option Z :=
  match ev with
  | HttpRedirect _ code => Some code
  | WriteHeader code => Some code
  | Encode _ _ code => Some code
  | _ => None
  end.

(** The header an event writes, if it writes one: the key of an
    assignment or of a [Set], [Set-Cookie] for [http.SetCookie] and
    [Location] for [http.Redirect]. [http.Redirect] can write
    [Content-Type] as well, see [writesContentType]. *)
Definition headerOf (ev : Event) : option string :=
  match ev with
  | HeaderAssign key _ => Some key
  | HeaderSet key _ => Some key
  | SetCookie _ => Some "Set-Cookie"
  | HttpRedirect _ _ => Some "Location"
  | _ => None
  end.



(** The events of steps 9 to 11: status line, content type and body. *)
Definition isBodyStep (ev : Event) : bool :=
  match ev with
  | WriteHeader _ | HeaderSet _ _ | Into | Copy | Close | Encode _ _ _ => true
  | _ => false
  end.

(** The status code and the content type a sequence of setter calls
    leaves in an envelope that started with [code] and [ct]. *)
Fixpoint lastStatusCode (code : Z) (calls : list SetterCall) : Z :=
  match calls with
  | [] => code
  | CallSetStatusCode code' :: rest => lastStatusCode code' rest
  | _ :: rest => lastStatusCode code rest
  end.

Fixpoint lastContentType (ct : string) (calls : list SetterCall) : string :=
  match calls with
  | [] => ct
  | CallSetContentType ct' :: rest => lastContentType ct' rest
  | _ :: rest => lastContentType ct rest
  end.

(** The default of lines 188-198. *)
Definition defaultCode (resp : option Value) (req : Request) : Z :=
  match resp with
  | None => StatusNoContent
  | Some _ => if String.eqb (Method req) MethodPost then StatusCreated else StatusOK
  end.


(** An event that writes a header or a cookie. *)
Definition isHeaderWrite (ev : Event) : bool :=
  match ev with
  | HeaderAssign _ _ | SetCookie _ | HeaderSet _ _ => true
  | _ => false
  end.

(** An event that sends the status line. *)
Definition sendsStatus (ev : Event) : bool :=
  match statusOf ev with Some _ => true | None => false end.

Definition isHeaderAssign (ev : Event) : bool :=
  match ev with HeaderAssign _ _ => true | _ => false end.

(** The cookies, the location and the metadata of one key that a sequence
    of setter calls leaves in an envelope. *)
Fixpoint lastCookies (cs : list (option Cookie)) (calls : list SetterCall)
  : list (option Cookie) :=
  match calls with
  | [] => cs
  | CallSetCookies cs' :: rest => lastCookies cs' rest
  | _ :: rest => lastCookies cs rest
  end.

Fixpoint lastLocation (loc : option URL) (calls : list SetterCall) : option URL :=
  match calls with
  | [] => loc
  | CallSetLocation loc' :: rest => lastLocation loc' rest
  | _ :: rest => lastLocation loc rest
  end.

Fixpoint lastMetadata (key : string) (values : option (list string))
         (calls : list SetterCall) : option (list string) :=
  match calls with
  | [] => values
  | CallSetMetadata key' values' :: rest =>
      if String.eqb key' key then lastMetadata key (Some values') rest
      else lastMetadata key values rest
  | _ :: rest => lastMetadata key values rest
  end.

(** The metadata of an envelope under one key. *)
Definition metadataAt (r : response) (key : string) : option (list string) :=
  match meta r with
  | Some mt => mt !! key
  | None => None
  end.

(** Two setter calls that write the same field, or the same metadata key. *)
Definition sameTarget (c1 c2 : SetterCall) : bool :=
  match c1, c2 with
  | CallSetStatusCode _, CallSetStatusCode _ => true
  | CallSetLocation _, CallSetLocation _ => true
  | CallSetContentType _, CallSetContentType _ => true
  | CallSetCookies _, CallSetCookies _ => true
  | CallSetMetadata k1 _, CallSetMetadata k2 _ => String.eqb k1 k2
  | _, _ => false
  end.

End courierhttp.


(** ** Package regexp, specialised to the one pattern of the scanner *)

Module regexp.

Definition slash : ascii := "/".

(** The bytes of the class [[*:]]. *)
Definition isMarker (c : ascii) : bool := Ascii.eqb c "*" || Ascii.eqb c ":".

(** The longest prefix matched by [[^/]*], and what follows it. *)
Fixpoint spanName (s : string) : string * string :=
  match s with
  | EmptyString => (EmptyString, EmptyString)
  | String c rest =>
      if Ascii.eqb c slash then (EmptyString, s)
      else let (name, after) := spanName rest in (String c name, after)
  end.

(** A match of [/[*:]([^/]+)] anchored at the first byte of [s]: the
    matched text and the text of the capture group. [+] is greedy, so the
    group takes every byte up to the next slash. *)
Definition matchHere (s : string) : option (string * string) :=
  match s with
  | String c (String mark rest) =>
      if Ascii.eqb c slash && isMarker mark then
        match spanName rest with
        | (EmptyString, _) => None
        | (name, _) => Some (String c (String mark name), name)
        end
      else None
  | _ => None
  end.

(** [re.ReplaceAllStringFunc(src, repl)]: the matches are the leftmost
    non-overlapping ones; [skip] counts the bytes of the current match
    that are still to be passed over. *)
Fixpoint replaceFrom (repl : string -> string) (skip : nat) (src : string) : string :=
  match src with
  | EmptyString => EmptyString
  | String c rest =>
      match skip with
      | S k => replaceFrom repl k rest
      | O =>
          match matchHere src with
          | Some (matched, _) =>
              repl matched +:+ replaceFrom repl (String.length matched - 1) rest
          | None => String c (replaceFrom repl O rest)
          end
      end
  end.

Definition ReplaceAllStringFunc (src : string) (repl : string -> string) : string :=
  replaceFrom repl O src.

(** The first entry of [re.FindAllStringSubmatch(s, -1)]: the leftmost
    match with its capture group. *)
Fixpoint FindStringSubmatch (s : string) : option (string * string) :=
  match matchHere s with
  | Some found => Some found
  | None =>
      match s with
      | EmptyString => None
      | String _ rest => FindStringSubmatch rest
      end
  end.

(** *** Vocabulary for the statements about paths *)

(** A name of the capture group: no slash in it. *)
Fixpoint noSlash (s : string) : bool :=
  match s with
  | EmptyString => true
  | String c rest => negb (Ascii.eqb c slash) && noSlash rest
  end.

(** What may follow a segment: the end of the path or the next slash. *)
Definition atBoundary (s : string) : bool :=
  match s with
  | EmptyString => true
  | String c _ => Ascii.eqb c slash
  end.

(** The segment [/:name] or [/*name]. *)
Definition segment (mark : ascii) (name : string) : string :=
  String slash (String mark name).

(** A path with no marker byte at all. *)
Fixpoint noMarker (s : string) : bool :=
  match s with
  | EmptyString => true
  | String c rest => negb (isMarker c) && noMarker rest
  end.

End regexp.

(** ** Package openapi: the scanner *)

Module openapi.

Definition Err := courierhttp.Err.
Definition TypeId := string.

(** A computation that may panic. *)
Inductive Outcome (A : Type) :=
| Returned (a : A)
| Panicked (e : Err).
Arguments Returned {A} a.
Arguments Panicked {A} e.

Definition bind {A B} (x : Outcome A) (k : A -> Outcome B) : Outcome B :=
  match x with
  | Returned a => k a
  | Panicked e => Panicked e
  end.

(** Modelled from the spec: the schema values of pkg/openapi/jsonschema,
    which is not among the sources: a schema extracted for a type, a
    description-only fragment, and the intersection built by [AllOf]. *)
Inductive Schema :=
| SchemaOf (t : TypeId)
| SchemaDescription (text : string)
| AllOf (a b : Schema).

(** Modelled from the spec: the document structures of pkg/openapi, which
    is not among the sources (section 3 of the specification: Response,
    Parameter, Operation, and the document with its components.schemas). *)
Record MediaType := mkMediaType {
  mt_Schema : option Schema
}.

Record Response := mkResponse {
  resp_Content : gmap string MediaType;
  resp_Extensions : gmap string (list string)
}.

Record OpParameter := mkParameter {
  param_Name : string;
  param_In : string;
  param_Schema : option Schema;
  param_Required : bool
}.

Record RequestBody := mkRequestBody {
  rb_Description : string;
  rb_Required : bool;
  rb_Content : gmap string MediaType
}.

Record Operation := mkOperation {
  OperationId : string;
  op_Summary : string;
  op_Description : string;
  op_Deprecated : bool;
  op_Tags : list string;
  op_Parameters : list OpParameter;
  op_RequestBody : option RequestBody;
  op_Responses : gmap Z Response
}.

Record OpenAPI := mkOpenAPI {
  Paths : gmap string (gmap string Operation);
  ComponentsSchemas : option (gmap string Schema)
}.

Definition NewOpenAPI : OpenAPI := mkOpenAPI ∅ None.

Definition NewOperation (operationId : string) : Operation :=
  mkOperation operationId EmptyString EmptyString false [] [] None ∅.

Definition set_docs (summary description : string) (deprecated : bool) (op : Operation) : Operation :=
  mkOperation (OperationId op) summary description deprecated (op_Tags op)
              (op_Parameters op) (op_RequestBody op) (op_Responses op).

Definition set_Tags (tags : list string) (op : Operation) : Operation :=
  mkOperation (OperationId op) (op_Summary op) (op_Description op) (op_Deprecated op)
              tags (op_Parameters op) (op_RequestBody op) (op_Responses op).

Definition AddParameter (p : OpParameter) (op : Operation) : Operation :=
  mkOperation (OperationId op) (op_Summary op) (op_Description op) (op_Deprecated op)
              (op_Tags op) (op_Parameters op ++ [p]) (op_RequestBody op) (op_Responses op).

Definition SetRequestBody (rb : RequestBody) (op : Operation) : Operation :=
  mkOperation (OperationId op) (op_Summary op) (op_Description op) (op_Deprecated op)
              (op_Tags op) (op_Parameters op) (Some rb) (op_Responses op).

Definition AddResponse (code : Z) (resp : Response) (op : Operation) : Operation :=
  mkOperation (OperationId op) (op_Summary op) (op_Description op) (op_Deprecated op)
              (op_Tags op) (op_Parameters op) (op_RequestBody op)
              (<[code := resp]> (op_Responses op)).

Definition NewRequestBody (description : string) (required : bool) : RequestBody :=
  mkRequestBody description required ∅.

Definition rb_AddContent (contentType : string) (mt : MediaType) (rb : RequestBody) : RequestBody :=
  mkRequestBody (rb_Description rb) (rb_Required rb) (<[contentType := mt]> (rb_Content rb)).

Definition emptyResponse : Response := mkResponse ∅ ∅.

Definition AddContent (contentType : string) (mt : MediaType) (resp : Response) : Response :=
  mkResponse (<[contentType := mt]> (resp_Content resp)) (resp_Extensions resp).

Definition AddExtension (key : string) (value : list string) (resp : Response) : Response :=
  mkResponse (resp_Content resp) (<[key := value]> (resp_Extensions resp)).

Definition QueryParameter (name : string) (s : option Schema) (required : bool) : OpParameter :=
  mkParameter name "query" s required.
Definition CookieParameter (name : string) (s : option Schema) (required : bool) : OpParameter :=
  mkParameter name "cookie" s required.
Definition HeaderParameter (name : string) (s : option Schema) (required : bool) : OpParameter :=
  mkParameter name "header" s required.
Definition PathParameter (name : string) (s : option Schema) : OpParameter :=
  mkParameter name "path" s true.

Definition AddOperation (method path : string) (op : Operation) (o : OpenAPI) : OpenAPI :=
  let item := match Paths o !! path with Some item => item | None => ∅ end in
  mkOpenAPI (<[path := <[method := op]> item]> (Paths o)) (ComponentsSchemas o).

(** A struct field as [reflect] shows it. *)
Record StructField := mkStructField {
  field_Name : string;
  (** [field.Tag().Get(key)] is the empty string for an absent key *)
  field_Tag : gmap string string;
  field_Type : TypeId
}.

Definition TagGet (f : StructField) (key : string) : string :=
  match field_Tag f !! key with Some x => x | None => EmptyString end.

(** One call of the function given to [typesx.EachField]. *)
Record VisitedField := mkVisitedField {
  field : StructField;
  fieldDisplayName : string;
  omitempty : bool
}.

(** The [reflect.Type] of an operator: its package path, the fields
    [typesx.EachField(t, "name", _, "in")] visits, in order, and the
    [RuntimeDoc] method when a pointer to the type has one. *)
Record StructType := mkStructType {
  PkgPath : string;
  EachField : list VisitedField;
  RuntimeDoc : option (string -> option (list string))
}.

(** [o.Operator], seen through the type assertions of [scanResponse]. *)
Record Operator := mkOperator {
  (** [courierhttp.MethodDescriber] *)
  can_Method : option string;
  (** [CanResponseStatusCode] *)
  can_ResponseStatusCode : option Z;
  (** [CanResponseContentType] *)
  can_ResponseContentType : option string;
  (** [CanResponseContent]: the type of the returned value, nil allowed *)
  can_ResponseContent : option (option TypeId);
  (** [CanResponseErrors] *)
  can_ResponseErrors : option (list courierhttp.Value)
}.

(** [courier.OperatorFactory] *)
Record OperatorFactory := mkOperatorFactory {
  of_Type : StructType;
  of_Operator : Operator;
  IsLast : bool
}.

(** What [request.NewRouteHandler] returns on success. *)
Record RouteHandler := mkRouteHandler {
  rh_OperationID : string;
  rh_Summary : string;
  rh_Description : string;
  rh_Deprecated : bool;
  rh_Operators : list OperatorFactory;
  rh_Method : string;
  rh_Path : string
}.

(** A [courier.Route], seen through [request.NewRouteHandler(r, "openapi")]. *)
Record Route := mkRoute {
  NewRouteHandler : Err + RouteHandler
}.

(** What one call of [extractors.SchemaFrom] does with the scanner it is
    given as schema register: the type references it passes to [Record],
    the registrations it passes to [RegisterSchema], and its result. *)
Record Extraction := mkExtraction {
  ex_recorded : list string;
  ex_registered : list (string * Schema);
  ex_schema : option Schema
}.

(** The collaborators of the scanner that live outside the file. *)
Record Collaborators := mkCollaborators {
  (** [statuserror.FromErr] *)
  FromErr : courierhttp.Value -> courierhttp.StatusErr;
  (** [transformer.NewTransformer(ctx, t, Option{MIME: mime})] *)
  NewTransformer : TypeId -> string -> Err + courierhttp.Transformer;
  (** [extractors.SchemaFrom], given [RefString] and the recorded set *)
  SchemaFrom : (string -> string) -> gset string -> TypeId -> bool -> Extraction;
  (** the naming installed by [FromRouter] when no option sets one *)
  defaultNaming : string -> string;
  (** the order in which [range codes] visits the map *)
  rangeCodes : gmap Z (list string) -> list (Z * list string);
  rangeCodes_perm : forall codes, rangeCodes codes ≡ₚ map_to_list codes
}.

Record buildOption := mkBuildOption {
  naming : option (string -> string)
}.

Definition BuildOptionFunc := buildOption -> buildOption.

Definition Naming (f : string -> string) : BuildOptionFunc :=
  fun _ => mkBuildOption (Some f).

(** [type scanner struct]: the document, the recorded type references
    (the keys of the [sync.Map]) and the naming in force. *)
Record scanner := mkScanner {
  o : OpenAPI;
  m : gset string;
  opt_naming : string -> string
}.

Definition set_o (d : OpenAPI) (b : scanner) : scanner :=
  mkScanner d (m b) (opt_naming b).

(** [func (b *scanner) Record] *)
Definition Record_ (typeRef : string) (b : scanner) : scanner * bool :=
  (mkScanner (o b) ({[typeRef]} ∪ m b) (opt_naming b), bool_decide (typeRef ∈ m b)).

(** [func tag] *)
Definition tag (pkgPath : string) : string :=
  gostrings.final (gostrings.Split1 pkgPath "/").

Definition schemasPrefix : string := "#/components/schemas/".

(** [func (b *scanner) RefString] *)
Definition RefString (b : scanner) (ref : string) : string :=
  schemasPrefix +:+ opt_naming b ref.

(** [func (b *scanner) RegisterSchema] *)
Definition RegisterSchema (ref : string) (s : Schema) (b : scanner) : scanner :=
  let schemas := match ComponentsSchemas (o b) with Some x => x | None => ∅ end in
  let n := gostrings.TrimLeft ref schemasPrefix in
  match schemas !! n with
  | None => set_o (mkOpenAPI (Paths (o b)) (Some (<[n := s]> schemas))) b
  | Some _ => set_o (mkOpenAPI (Paths (o b)) (Some schemas)) b
  end.

(** [func tagValueAndFlagsByTagString] *)
Definition tagValueAndFlagsByTagString (tagString : string) : string * gmap string bool :=
  let valueAndFlags := gostrings.Split1 tagString "," in
  (gostrings.first valueAndFlags,
   fold_left (fun flags flag => <[flag := true]> flags) (tl valueAndFlags) ∅).

(** [strings.Join(lines, "\n")] *)
Definition newline : string := String (ascii_of_nat 10) EmptyString.

Fixpoint Join (lines : list string) (sep : string) : string :=
  match lines with
  | [] => EmptyString
  | [x] => x
  | x :: rest => x +:+ sep +:+ Join rest sep
  end.

(** [strings.ToLower] on ASCII input (HTTP methods). *)
Fixpoint ToLower (s : string) : string :=
  match s with
  | EmptyString => EmptyString
  | String c rest => String (textproto.toLower c) (ToLower rest)
  end.

(** The path parameters an operation declares. *)
Definition declaresPathParameter (op : Operation) (name : string) : Prop :=
  exists p, In p (op_Parameters op) /\ param_In p = "path" /\ param_Name p = name.

(** [func (b *scanner) patchPath] *)
Definition isParameterDefined (name : string) (op : Operation) : bool :=
  fold_left (fun defined p =>
               if String.eqb (param_In p) "path" && String.eqb (param_Name p) name
               then true else defined)
            (op_Parameters op) false.

Definition patchSegment (op : Operation) (str : string) : string :=
  let name := match regexp.FindStringSubmatch str with
              | Some (_, name) => name
              | None => EmptyString
              end in
  if isParameterDefined name op then "/{" +:+ name +:+ "}" else "/0".

Definition patchPath (openapiPath : string) (op : Operation) : string :=
  regexp.ReplaceAllStringFunc openapiPath (patchSegment op).

(** [errors.Errorf("missing tag `in` for %s of %s", field.Name(), op.OperationId)] *)
Definition missingTag (fieldName operationId : string) : Err :=
  "missing tag `in` for " +:+ fieldName +:+ " of " +:+ operationId.

(** The scanner [FromRouter] starts with (lines 61-94). *)
Definition newScanner (defaultNaming : string -> string) (fns : list BuildOptionFunc) : scanner :=
  let opt := fold_left (fun opt fn => fn opt) fns (mkBuildOption None) in
  mkScanner NewOpenAPI ∅
            (match naming opt with Some f => f | None => defaultNaming end).

(** The operation [scan] starts with (lines 131-135). *)
Definition newOperation (rh : RouteHandler) : Operation :=
  set_docs (rh_Summary rh) (rh_Description rh) (rh_Deprecated rh)
           (NewOperation (rh_OperationID rh)).

Section Scanner.
Variable C : Collaborators.

(** [func (b *scanner) SchemaFromType] *)
Definition SchemaFromType (t : TypeId) (def : bool) (b : scanner) : scanner * option Schema :=
  let ex := SchemaFrom C (RefString b) (m b) t def in
  let b := fold_left (fun b typeRef => fst (Record_ typeRef b)) (ex_recorded ex) b in
  let b := fold_left (fun b reg => RegisterSchema (fst reg) (snd reg) b) (ex_registered ex) b in
  (b, ex_schema ex).

(** lines 246-251: the summaries grouped by status code *)
Definition groupCodes (returnErrors : list courierhttp.Value) : gmap Z (list string) :=
  fold_left (fun codes err =>
               let e := FromErr C err in
               let old := match codes !! courierhttp.se_StatusCode e with
                          | Some l => l
                          | None => []
                          end in
               <[courierhttp.se_StatusCode e := old ++ [courierhttp.se_Summary e]]> codes)
            returnErrors ∅.

(** One round of the loop of lines 253-266. *)
Definition addErrorResponse (first : courierhttp.Value) (st : scanner * Operation)
           (entry : Z * list string) : scanner * Operation :=
  let (b, schema) := SchemaFromType (courierhttp.val_type first) false (fst st) in
  let errResp := AddContent "application/json" (mkMediaType schema) emptyResponse in
  let errResp := AddExtension "x-status-returnErrors" (snd entry) errResp in
  (b, AddResponse (fst entry) errResp (snd st)).

(** lines 243-267. [returnErrors[0]] is read inside the loop only, which
    runs no round when the slice is empty. *)
Definition scanResponseErrors (b : scanner) (op : Operation) (handler : Operator)
  : scanner * Operation :=
  match can_ResponseErrors handler with
  | Some returnErrors =>
      match returnErrors with
      | first :: _ =>
          fold_left (addErrorResponse first) (rangeCodes C (groupCodes returnErrors)) (b, op)
      | [] => (b, op)
      end
  | None => (b, op)
  end.

(** [func (b *scanner) scanResponse] *)
Definition scanResponse (b : scanner) (op : Operation) (fac : OperatorFactory)
  : scanner * Operation :=
  let handler := of_Operator fac in
  let method := match can_Method handler with Some x => x | None => EmptyString end in
  let statusCode :=
    match can_Method handler with
    | Some x => if String.eqb x courierhttp.MethodPost
                then courierhttp.StatusCreated else courierhttp.StatusOK
    | None => courierhttp.StatusNoContent
    end in
  if String.eqb method EmptyString then (b, op)
  else
    let statusCode := match can_ResponseStatusCode handler with
                      | Some code => code
                      | None => statusCode
                      end in
    let contentType := match can_ResponseContentType handler with
                       | Some ct => ct
                       | None => "application/json"
                       end in
    let (b, resp) :=
      match can_ResponseContent handler with
      | Some (Some rt) =>
          let (b, schema) := SchemaFromType rt false b in
          (b, AddContent contentType (mkMediaType schema) emptyResponse)
      | Some None => (b, emptyResponse)
      | None => (b, AddContent contentType (mkMediaType None) emptyResponse)
      end in
    scanResponseErrors b (AddResponse statusCode resp op) handler.

(** The function given to [typesx.EachField] in
    [scanParameterOrRequestBody] (lines 281-334). *)
Definition scanField (docer : option (string -> option (list string)))
           (st : scanner * Operation) (vf : VisitedField)
  : Outcome (scanner * Operation) :=
  let (b, op) := st in
  let f := field vf in
  let location := fst (tagValueAndFlagsByTagString (TagGet f "in")) in
  if String.eqb location EmptyString then
    Panicked (missingTag (field_Name f) (OperationId op))
  else
    match NewTransformer C (field_Type f)
            (gostrings.first (gostrings.Split1 (TagGet f "mime") ",")) with
    | inl err => Panicked err
    | inr tf =>
        let (b, schema) := SchemaFromType (field_Type f) false b in
        if String.eqb location "body" then
          let (reqBody, op) :=
            match op_RequestBody op with
            | Some rb => (rb, op)
            | None => let rb := NewRequestBody EmptyString true in (rb, SetRequestBody rb op)
            end in
          let s :=
            match docer with
            | Some doc =>
                match doc (field_Name f) with
                | Some lines =>
                    let ds := SchemaDescription (Join lines newline) in
                    match schema with
                    | None => Some ds
                    | Some sch => Some (AllOf sch ds)
                    end
                | None => schema
                end
            | None => schema
            end in
          match courierhttp.Names tf with
          | name :: _ =>
              Returned (b, SetRequestBody (rb_AddContent name (mkMediaType s) reqBody) op)
          | [] => Panicked "runtime error: index out of range [0] with length 0"
          end
        else if String.eqb location "query" then
          Returned (b, AddParameter (QueryParameter (fieldDisplayName vf) schema (negb (omitempty vf))) op)
        else if String.eqb location "cookie" then
          Returned (b, AddParameter (CookieParameter (fieldDisplayName vf) schema (negb (omitempty vf))) op)
        else if String.eqb location "header" then
          Returned (b, AddParameter (HeaderParameter (fieldDisplayName vf) schema (negb (omitempty vf))) op)
        else if String.eqb location "path" then
          Returned (b, AddParameter (PathParameter (fieldDisplayName vf) schema) op)
        else Returned (b, op)
    end.

(** A loop whose body may panic: the first panic ends it. *)
Fixpoint each {A S} (body : S -> A -> Outcome S) (xs : list A) (st : S) : Outcome S :=
  match xs with
  | [] => Returned st
  | x :: rest => bind (body st x) (each body rest)
  end.

(** [func (b *scanner) scanParameterOrRequestBody] *)
Definition scanParameterOrRequestBody (b : scanner) (op : Operation) (t : StructType)
  : Outcome (scanner * Operation) :=
  each (scanField (RuntimeDoc t)) (EachField t) (b, op).

(** One round of the loop over [rh.Operators()] in [scan]. *)
Definition scanOperator (st : scanner * Operation) (fac : OperatorFactory)
  : Outcome (scanner * Operation) :=
  bind (scanParameterOrRequestBody (fst st) (snd st) (of_Type fac))
       (fun st =>
          if IsLast fac then
            Returned (scanResponse (fst st) (set_Tags [tag (PkgPath (of_Type fac))] (snd st)) fac)
          else Returned st).

(** [func (b *scanner) scan]: the scanner and the returned error. *)
Definition scan (b : scanner) (r : Route) : Outcome (scanner * option Err) :=
  match NewRouteHandler r with
  | inl err => Returned (b, Some err)
  | inr rh =>
      let op := newOperation rh in
      bind (each scanOperator (rh_Operators rh) (b, op))
           (fun st =>
              let (b, op) := st in
              Returned
                (set_o (AddOperation (ToLower (rh_Method rh)) (patchPath (rh_Path rh) op) op (o b)) b,
                 None))
  end.

(** One round of the loop over the routes in [FromRouter]. *)
Definition scanRoute (b : scanner) (r : Route) : Outcome scanner :=
  bind (scan b r)
       (fun res => match snd res with
                   | Some err => Panicked err
                   | None => Returned (fst res)
                   end).

(** [func FromRouter]: the document, or the panic that aborts the build. *)
Definition FromRouter (routes : list Route) (fns : list BuildOptionFunc) : Outcome OpenAPI :=
  let b := newScanner (defaultNaming C) fns in
  bind (each scanRoute routes b) (fun b => Returned (o b)).

(** *** Vocabulary for the statements about the scanner *)

(** The summaries of the errors that convert to [code], in the order of
    the errors. *)
Definition summariesFor (code : Z) (returnErrors : list courierhttp.Value) : list string :=
  map courierhttp.se_Summary
      (List.filter (fun e => courierhttp.se_StatusCode e =? code)
                   (map (FromErr C) returnErrors)).

End Scanner.

(** The error response of lines 254-263. *)
Definition errorResponse (schema : option Schema) (summaries : list string) : Response :=
  AddExtension "x-status-returnErrors" summaries
               (AddContent "application/json" (mkMediaType schema) emptyResponse).

(** The same operator without the [ResponseErrors] method. *)
Definition withoutErrors (fac : OperatorFactory) : OperatorFactory :=
  let h := of_Operator fac in
  mkOperatorFactory (of_Type fac)
    (mkOperator (can_Method h) (can_ResponseStatusCode h) (can_ResponseContentType h)
                (can_ResponseContent h) None)
    (IsLast fac).

(** The schemas of the document. *)
Definition schemasOf (b : scanner) : gmap string Schema :=
  match ComponentsSchemas (o b) with Some x => x | None => ∅ end.

(** The first registration in a sequence whose key is [n]. *)
Fixpoint firstRegistered (n : string) (regs : list (string * Schema)) : option Schema :=
  match regs with
  | [] => None
  | (ref, s) :: rest =>
      if String.eqb (gostrings.TrimLeft ref schemasPrefix) n then Some s
      else firstRegistered n rest
  end.

(** What a step keeps of the operation: its id and its responses. *)
Definition keepsOperation (op op' : Operation) : Prop :=
  OperationId op' = OperationId op /\ op_Responses op' = op_Responses op.

(** The operation a document holds for a method and a path. *)
Definition operationAt (d : OpenAPI) (method path : string) : option Operation :=
  match Paths d !! path with
  | Some item => item !! method
  | None => None
  end.

(** A name that [strings.TrimLeft] leaves alone: it does not start with
    a byte of the cutset. *)
Definition safeName (name : string) : bool :=
  match name with
  | EmptyString => true
  | String c _ => negb (gostrings.contains schemasPrefix c)
  end.

(** The first registration in a sequence of (type reference, schema)
    pairs whose name is [n]. *)
Fixpoint firstNamed (naming : string -> string) (n : string)
         (regs : list (string * Schema)) : option Schema :=
  match regs with
  | [] => None
  | (typeRef, s) :: rest =>
      if String.eqb (naming typeRef) n then Some s else firstNamed naming n rest
  end.

(** The location a field declares. *)
Definition locationOf (vf : VisitedField) : string :=
  fst (tagValueAndFlagsByTagString (TagGet (field vf) "in")).

(** Location, name and required flag of a parameter. *)
Definition parameterShape (p : OpParameter) : string * string * bool :=
  (param_In p, param_Name p, param_Required p).

(** The parameter a field stands for, if its location is one of
    parameters. *)
Definition expectedShapes (vf : VisitedField) : list (string * string * bool) :=
  let loc := locationOf vf in
  if String.eqb loc "query" || String.eqb loc "cookie" || String.eqb loc "header"
  then [(loc, fieldDisplayName vf, negb (omitempty vf))]
  else if String.eqb loc "path" then [("path", fieldDisplayName vf, true)]
  else [].

(** The five locations [scanParameterOrRequestBody] knows. *)
Definition knownLocation (loc : string) : bool :=
  String.eqb loc "body" || String.eqb loc "query" || String.eqb loc "cookie"
  || String.eqb loc "header" || String.eqb loc "path".

(** What [scan] copies from the route handler into the operation. *)
Definition describes (rh : RouteHandler) (op : Operation) : Prop :=
  OperationId op = rh_OperationID rh /\ op_Summary op = rh_Summary rh
  /\ op_Description op = rh_Description rh /\ op_Deprecated op = rh_Deprecated rh.

(** Two operations that differ in their responses at most. *)
Definition sameButResponses (op op' : Operation) : Prop :=
  OperationId op' = OperationId op /\ op_Summary op' = op_Summary op
  /\ op_Description op' = op_Description op /\ op_Deprecated op' = op_Deprecated op
  /\ op_Tags op' = op_Tags op /\ op_Parameters op' = op_Parameters op
  /\ op_RequestBody op' = op_RequestBody op.

(** The parameters the operators of a route stand for, in order. *)
Definition expectedParameters (ops : list OperatorFactory) : list (string * string * bool) :=
  flat_map (fun fac => flat_map expectedShapes (EachField (of_Type fac))) ops.

End openapi.


(** ** Sample inputs *)

Module samples.
Import courierhttp.

(** A value with no capability at all. *)
Definition plain (t : RType) : Value :=
  mkValue t None false None None None None None false.

(** A value with a [StatusCode] method. *)
Definition describer (code : Z) : Value :=
  mkValue "Describer" None false (Some code) None None None None false.

(** A value with [StatusCode] and [Location] methods. *)
Definition redirector (code : Z) (loc : option URL) : Value :=
  mkValue "Redirector" None false (Some code) (Some loc) None None None false.

(** A value with its own [WriteResponse] method. *)
Definition responder : Value :=
  mkValue "Responder" (Some (fun _ => None)) false None None None None None false.

(** A plain error value. *)
Definition failure : Value :=
  mkValue "*errors.errorString" None true None None None None None false.

(** Collaborators: every error becomes a 500 status error, every codec
    resolves and encodes, maps are visited in [map_to_list] order. *)
Definition C0 : Collaborators :=
  mkCollaborators
    (fun _ => mkStatusErr 500 "UnknownError" (plain "*statuserror.StatusErr"))
    (fun _ _ => inr (mkTransformer ["application/json"] (fun _ => None)))
    map_to_list
    (fun m => Permutation_refl (map_to_list m)).

Definition GET : Request := mkRequest "GET" "/".
Definition POST : Request := mkRequest "POST" "/".

(** Collaborators of the scanner: two not-found errors and an internal
    one, a codec for every MIME type but [bogus], and an extractor that
    records and registers the type under its reference. *)
Definition S0 : openapi.Collaborators :=
  openapi.mkCollaborators
    (fun x =>
       if String.eqb (val_type x) "ErrNotFoundA"
       then mkStatusErr 404 "not_found_a" (plain "*statuserror.StatusErr")
       else if String.eqb (val_type x) "ErrNotFoundB"
       then mkStatusErr 404 "not_found_b" (plain "*statuserror.StatusErr")
       else mkStatusErr 500 "internal" (plain "*statuserror.StatusErr"))
    (fun _ mime =>
       if String.eqb mime "bogus" then inl "unsupported mime"
       else inr (mkTransformer
                   [if String.eqb mime EmptyString then "application/json" else mime]
                   (fun _ => None)))
    (fun refString _ t _ =>
       openapi.mkExtraction [t] [(refString t, openapi.SchemaOf t)]
                            (Some (openapi.SchemaOf t)))
    (fun t => t)
    map_to_list
    (fun codes => Permutation_refl (map_to_list codes)).

Definition errNotFoundA : Value :=
  mkValue "ErrNotFoundA" None true None None None None None false.
Definition errNotFoundB : Value :=
  mkValue "ErrNotFoundB" None true None None None None None false.
Definition errInternal : Value :=
  mkValue "ErrInternal" None true None None None None None false.

(** A struct field with the given tags. *)
Definition fieldOf (name : string) (tags : list (string * string)) : openapi.VisitedField :=
  openapi.mkVisitedField (openapi.mkStructField name (list_to_map tags) "string") name false.

Definition sampleScanner : openapi.scanner :=
  openapi.newScanner (openapi.defaultNaming S0) [openapi.Naming (fun t => t)].

Definition getItem (t : openapi.StructType) (handler : openapi.Operator) : openapi.Route :=
  openapi.mkRoute (inr (openapi.mkRouteHandler "GetItem" "Get an item" EmptyString false
                               [openapi.mkOperatorFactory t handler true] "GET" "/items/:id")).

Definition threeErrors : openapi.Operator :=
  openapi.mkOperator (Some "GET") None None (Some (Some "Item"))
             (Some [errNotFoundA; errNotFoundB; errInternal]).

Definition noVerb : openapi.Operator :=
  openapi.mkOperator None (Some 202) (Some "text/plain") (Some (Some "Item"))
             (Some [errNotFoundA; errNotFoundB; errInternal]).

(** Collaborators whose codec resolver always fails. *)
Definition Cfail : Collaborators :=
  mkCollaborators (FromErr C0) (fun _ _ => inl "no codec") map_to_list
                  (fun mt => Permutation_refl (map_to_list mt)).

(** A value that is a [courier.Result], an [io.Reader] and an [io.Closer]. *)
Definition export : Value :=
  mkValue "Export" None false None None None (Some None) (Some None) true.

(** A file whose copy fails. *)
Definition brokenFile : Value :=
  mkValue "*os.File" None false None None None None (Some (Some "broken pipe")) true.

(** An operator type with a path field and an optional query field. *)
Definition itemType : openapi.StructType :=
  openapi.mkStructType "example.com/apis/item"
    [openapi.mkVisitedField
       (openapi.mkStructField "ID" (list_to_map [("in", "path"); ("name", "id")]) "string")
       "id" false;
     openapi.mkVisitedField
       (openapi.mkStructField "Limit"
          (list_to_map [("in", "query"); ("name", "limit,omitempty")]) "int")
       "limit" true]
    None.

Definition listItems : openapi.Operator :=
  openapi.mkOperator (Some "GET") None None (Some (Some "Item")) None.

Definition createItem : openapi.Operator :=
  openapi.mkOperator (Some "POST") None None (Some (Some "Item")) None.

End samples.

(** * Properties of the dispatcher *)

Section DispatchProperties.
Import courierhttp.
Variable C : Collaborators.

Lemma envelope_WriteResponse r req :
  envelope (WriteResponse C r req) = set_v None (envelope (writeResponse C r req)).
Proof. reflexivity. Qed.

(** The setters touch one field each. *)
Lemma v_call c r : v (call c r) = v r.
Proof. destruct c; reflexivity. Qed.

Lemma v_apply opt r : v (apply opt r) = v r.
Proof.
  revert r. induction opt as [|c opt IH]; intros r; simpl; [reflexivity|].
  unfold apply in IH. rewrite IH. apply v_call.
Qed.

Lemma fold_apply_concat opts r :
  fold_left (fun resp opt => apply opt resp) opts r = apply (concat opts) r.
Proof.
  revert r. induction opts as [|opt opts IH]; intros r; simpl; [reflexivity|].
  rewrite IH. unfold apply. now rewrite fold_left_app.
Qed.

Lemma Wrap_concat x opts :
  Wrap x opts = apply (concat opts) (mkResponse x None [] None EmptyString 0).
Proof. apply fold_apply_concat. Qed.

Lemma v_Wrap x opts : v (Wrap x opts) = x.
Proof. rewrite Wrap_concat, v_apply. reflexivity. Qed.

Lemma statusCode_apply calls r :
  statusCode (apply calls r) = lastStatusCode (statusCode r) calls.
Proof.
  revert r. induction calls as [|c calls IH]; intros r; [reflexivity|].
  change (apply (c :: calls) r) with (apply calls (call c r)).
  rewrite IH. destruct c; reflexivity.
Qed.

Lemma contentType_apply calls r :
  contentType (apply calls r) = lastContentType (contentType r) calls.
Proof.
  revert r. induction calls as [|c calls IH]; intros r; [reflexivity|].
  change (apply (c :: calls) r) with (apply calls (call c r)).
  rewrite IH. destruct c; reflexivity.
Qed.

Lemma statusCode_Wrap x opts : statusCode (Wrap x opts) = lastStatusCode 0 (concat opts).
Proof. rewrite Wrap_concat, statusCode_apply. reflexivity. Qed.

Lemma contentType_Wrap x opts :
  contentType (Wrap x opts) = lastContentType EmptyString (concat opts).
Proof. rewrite Wrap_concat, contentType_apply. reflexivity. Qed.

Ltac case_split :=
  repeat match goal with
         | |- context [Z.eqb ?a ?b] => destruct (Z.eqb a b) eqn:?; simpl in *
         | |- context [String.eqb ?a ?b] => destruct (String.eqb a b) eqn:?; simpl in *
         end;
  repeat match goal with
         | |- context [match ?x with _ => _ end] => destruct x eqn:?; simpl in *
         end.

(** The three resolution steps change the status code and the location
    only. *)
Lemma resolved_fields r req :
  v (resolved C r req) = v r /\ meta (resolved C r req) = meta r
  /\ cookies (resolved C r req) = cookies r
  /\ contentType (resolved C r req) = contentType r.
Proof.
  unfold resolved, adoptRedirect, defaultStatus, adoptStatus.
  destruct r as [x mt cs loc ct code]; simpl.
  case_split; auto.
Qed.

(** The status code after steps 3 to 5, as a function of the inputs. *)
Lemma resolved_statusCode r req :
  statusCode (resolved C r req) =
    let resp := convert C (v r) in
    let explicit := match asStatusCodeDescriber resp with
                    | Some code => code
                    | None => statusCode r
                    end in
    match location r, asRedirectDescriber resp with
    | None, Some (code, _) => code
    | _, _ => if explicit =? 0 then defaultCode resp req else explicit
    end.
Proof.
  unfold resolved, adoptRedirect, defaultStatus, adoptStatus, defaultCode.
  destruct r as [x mt cs loc ct code]; simpl.
  destruct (convert C x) as [y|]; simpl.
  - destruct (val_StatusCode y) as [c|], (val_Location y) as [l|], loc as [u|]; simpl;
      case_split; try reflexivity; try congruence.
  - destruct loc; simpl; case_split; reflexivity.
Qed.

Lemma resolved_location r req :
  location (resolved C r req) =
    match location r, asRedirectDescriber (convert C (v r)) with
    | None, Some (_, loc) => loc
    | explicit, _ => explicit
    end.
Proof.
  unfold resolved, adoptRedirect, defaultStatus, adoptStatus.
  destruct r as [x mt cs loc ct code]; simpl.
  destruct (convert C x) as [y|]; simpl.
  - destruct (val_StatusCode y) as [c|], (val_Location y) as [l|], loc as [u|]; simpl;
      case_split; try reflexivity; try congruence.
  - destruct loc; simpl; case_split; reflexivity.
Qed.

(** What [WriteResponse] does when it does not delegate. *)
Lemma writeResponse_not_delegated r req :
  asResponseWriter (v r) = None ->
  let r' := resolved C r req in
  envelope (writeResponse C r req) = r'
  /\ exists rest,
      trace (writeResponse C r req) = writeMeta C r ++ writeCookies r ++ rest
      /\ match location r' with
         | Some url => rest = [HttpRedirect url (statusCode r')]
                       /\ returned (writeResponse C r req) = None
         | None =>
             if statusCode r' =? StatusNoContent
             then rest = [WriteHeader (statusCode r')]
                  /\ returned (writeResponse C r req) = None
             else rest = writeContentType r
                           ++ fst (writeBody C (convert C (v r)) r')
                  /\ returned (writeResponse C r req) = snd (writeBody C (convert C (v r)) r')
         end.
Proof.
  intros H r'. unfold writeResponse. rewrite H. fold (resolved C r req). fold r'.
  destruct (resolved_fields r req) as (_ & Hm & Hc & Hct). fold r' in Hm, Hc, Hct.
  assert (HM : writeMeta C r' = writeMeta C r) by (unfold writeMeta; now rewrite Hm).
  assert (HC : writeCookies r' = writeCookies r) by (unfold writeCookies; now rewrite Hc).
  assert (HT : writeContentType r' = writeContentType r)
    by (unfold writeContentType; now rewrite Hct).
  rewrite HM, HC, HT.
  destruct (location r') as [url|].
  - split; [reflexivity|]. eexists; split; [simpl; now rewrite <- app_assoc|]. split; reflexivity.
  - destruct (statusCode r' =? StatusNoContent).
    + split; [reflexivity|]. eexists; split; [simpl; now rewrite <- app_assoc|].
      split; reflexivity.
    + destruct (writeBody C (convert C (v r)) r') as [body err].
      split; [reflexivity|]. eexists; split; [simpl; now rewrite <- app_assoc|].
      split; reflexivity.
Qed.

Lemma In_writeMeta r ev :
  In ev (writeMeta C r) ->
  exists m key values,
    meta r = Some m /\ m !! key = Some values
    /\ ev = HeaderAssign (textproto.CanonicalMIMEHeaderKey key) values.
Proof.
  unfold writeMeta. destruct (meta r) as [m|]; [|intros []].
  intros H. apply in_map_iff in H. destruct H as ([key values] & <- & H).
  exists m, key, values. repeat split.
  apply elem_of_map_to_list. rewrite <- (rangeMeta_perm C m).
  now apply list_elem_of_In.
Qed.

Lemma In_writeCookies r ev : In ev (writeCookies r) -> exists c, ev = SetCookie c.
Proof.
  unfold writeCookies. intros H. apply in_flat_map in H.
  destruct H as ([c|] & _ & H); simpl in H; [|destruct H].
  destruct H as [<-|[]]. now exists c.
Qed.

Lemma In_writeContentType r ev :
  In ev (writeContentType r) ->
  ev = HeaderSet "Content-Type" (contentType r) /\ contentType r <> EmptyString.
Proof.
  unfold writeContentType. destruct (String.eqb_spec (contentType r) EmptyString) as [E|E].
  - intros [].
  - intros [<-|[]]. now split.
Qed.

Lemma In_writeBody resp r ev :
  In ev (fst (writeBody C resp r)) ->
  ev = WriteHeader (statusCode r) \/ ev = Into \/ ev = Copy \/ ev = Close
  \/ ev = Encode (option_map val_type resp) (contentType r) (statusCode r).
Proof.
  unfold writeBody.
  destruct resp as [x|]; simpl.
  - destruct (val_Into x); simpl; [intuition congruence|].
    destruct (val_Read x); simpl.
    + destruct (val_isCloser x); simpl; intuition congruence.
    + destruct (NewTransformer C _ _); simpl; intuition congruence.
  - destruct (NewTransformer C _ _); simpl; intuition congruence.
Qed.

(** Every event of a dispatch that is not delegated. *)
Lemma In_trace_not_delegated r req ev :
  asResponseWriter (v r) = None ->
  In ev (trace (WriteResponse C r req)) ->
  let r' := resolved C r req in
  In ev (writeMeta C r) \/ In ev (writeCookies r)
  \/ (exists url, location r' = Some url /\ ev = HttpRedirect url (statusCode r'))
  \/ (location r' = None /\ statusCode r' = StatusNoContent /\ ev = WriteHeader (statusCode r'))
  \/ (location r' = None /\ statusCode r' <> StatusNoContent
      /\ (In ev (writeContentType r) \/ In ev (fst (writeBody C (convert C (v r)) r')))).
Proof.
  intros H Hin r'.
  change (trace (WriteResponse C r req)) with (trace (writeResponse C r req)) in Hin.
  destruct (writeResponse_not_delegated r req H) as (_ & rest & Ht & Hrest).
  rewrite Ht in Hin. clear Ht.
  fold r' in Hrest.
  rewrite !in_app_iff in Hin. destruct Hin as [Hin|[Hin|Hin]]; [tauto|tauto|].
  right; right.
  destruct (location r') as [url|].
  - destruct Hrest as (-> & _). destruct Hin as [<-|[]]. left. now exists url.
  - destruct (Z.eqb_spec (statusCode r') StatusNoContent) as [E|E].
    + destruct Hrest as (-> & _). destruct Hin as [<-|[]]. right; left. tauto.
    + destruct Hrest as (-> & _). rewrite in_app_iff in Hin. right; right. tauto.
Qed.

(** Whatever status an event sends is the resolved one. *)
Lemma status_events r req ev code :
  asResponseWriter (v r) = None ->
  In ev (trace (WriteResponse C r req)) ->
  statusOf ev = Some code ->
  code = statusCode (envelope (WriteResponse C r req)).
Proof.
  intros H Hin Hs.
  assert (E : statusCode (envelope (WriteResponse C r req)) = statusCode (resolved C r req)).
  { rewrite envelope_WriteResponse.
    now rewrite (proj1 (writeResponse_not_delegated r req H)). }
  rewrite E.
  destruct (In_trace_not_delegated r req ev H Hin) as [Hm|[Hc|[Hr|[Hn|Hb]]]].
  - apply In_writeMeta in Hm. destruct Hm as (? & ? & ? & _ & _ & ->). discriminate.
  - apply In_writeCookies in Hc. destruct Hc as (? & ->). discriminate.
  - destruct Hr as (url & _ & ->). simpl in Hs. congruence.
  - destruct Hn as (_ & _ & ->). simpl in Hs. congruence.
  - destruct Hb as (_ & _ & [Hb|Hb]).
    + apply In_writeContentType in Hb. destruct Hb as (-> & _). discriminate.
    + apply In_writeBody in Hb.
      destruct Hb as [->|[->|[->|[->| ->]]]]; simpl in Hs; congruence.
Qed.

Lemma envelope_not_delegated r req :
  asResponseWriter (v r) = None ->
  envelope (WriteResponse C r req) = set_v None (resolved C r req).
Proof.
  intros H. rewrite envelope_WriteResponse.
  now rewrite (proj1 (writeResponse_not_delegated r req H)).
Qed.

(** C4. Whatever [WriteResponse] does (it returns normally, it
    delegates to a value that writes its own response, or a write, encode
    or copy step fails), the deferred function has emptied the envelope
    when it returns: the wrapped value is nil, and a later [Underlying]
    finds no value. *)
Theorem C4_wrapped_value_released r req :
  v (envelope (WriteResponse C r req)) = None
  /\ Underlying (envelope (WriteResponse C r req)) = None.
Proof. split; reflexivity. Qed.

(** C2, amended. When the wrapped value does not write its own response,
    is not an error, has no [StatusCode] method (hence no redirect
    capability) and no status code was set, the dispatcher resolves 204
    for nil, 201 for a non-nil value on a POST request and 200 for a
    non-nil value otherwise; every status it sends is that one. *)
Theorem C2_default_status r req :
  asResponseWriter (v r) = None ->
  (forall x, v r = Some x -> val_isError x = false /\ val_StatusCode x = None) ->
  statusCode r = 0 ->
  let d := WriteResponse C r req in
  statusCode (envelope d) =
    match v r with
    | None => 204
    | Some _ => if String.eqb (Method req) "POST" then 201 else 200
    end
  /\ forall ev code, In ev (trace d) -> statusOf ev = Some code ->
                     code = statusCode (envelope d).
Proof.
  intros Hw Hx H0 d. split.
  - unfold d. rewrite (envelope_not_delegated r req Hw).
    change (statusCode (set_v None (resolved C r req))) with (statusCode (resolved C r req)).
    rewrite resolved_statusCode. cbv zeta. unfold convert.
    destruct (v r) as [x|] eqn:E.
    + destruct (Hx x eq_refl) as (He & Hs). rewrite He. simpl. rewrite Hs, H0. simpl.
      destruct (location r); reflexivity.
    + simpl. rewrite H0. simpl. destruct (location r); reflexivity.
  - intros ev code. apply status_events, Hw.
Qed.

(** C1, amended. Let the envelope be built by [Wrap] and the value not
    write its own response. A status code set on the envelope replaces
    the defaults 204, 201 and 200 only: it is the resolved status when
    the (error-converted) value has no [StatusCode] method, and a
    non-zero status returned by that method is the resolved status
    whatever was set. The content type set on the envelope is never
    replaced: it is the only [Content-Type] the dispatcher sets in the
    body step, it is set whenever that step is reached with a non-empty
    content type, and it is the MIME type given to the codec. *)
Theorem C1_explicit_settings x opts req :
  asResponseWriter x = None ->
  let r := Wrap x opts in
  let explicit := lastStatusCode 0 (concat opts) in
  let ct := lastContentType EmptyString (concat opts) in
  let d := WriteResponse C r req in
  statusCode r = explicit /\ contentType r = ct
  /\ (asStatusCodeDescriber (convert C x) = None -> explicit <> 0 ->
      statusCode (envelope d) = explicit)
  /\ (forall code, asStatusCodeDescriber (convert C x) = Some code -> code <> 0 ->
                   statusCode (envelope d) = code)
  /\ (forall ev code, In ev (trace d) -> statusOf ev = Some code ->
                      code = statusCode (envelope d))
  /\ contentType (envelope d) = ct
  /\ (forall key value, In (HeaderSet key value) (trace d) ->
                        key = "Content-Type" /\ value = ct /\ ct <> EmptyString)
  /\ (forall t mime code, In (Encode t mime code) (trace d) -> mime = ct)
  /\ (ct <> EmptyString -> location (envelope d) = None ->
      statusCode (envelope d) <> StatusNoContent ->
      In (HeaderSet "Content-Type" ct) (trace d)).
Proof.
  intros Hw r explicit ct d.
  assert (Hv : v r = x) by apply v_Wrap.
  assert (Hw' : asResponseWriter (v r) = None) by now rewrite Hv.
  assert (Hs : statusCode r = explicit) by apply statusCode_Wrap.
  assert (Hc : contentType r = ct) by apply contentType_Wrap.
  assert (He : envelope d = set_v None (resolved C r req))
    by apply envelope_not_delegated, Hw'.
  assert (Hres : statusCode (envelope d) = statusCode (resolved C r req))
    by now rewrite He.
  assert (Hct : contentType (envelope d) = ct).
  { rewrite He. change (contentType (resolved C r req) = ct).
    now rewrite (proj2 (proj2 (proj2 (resolved_fields r req)))). }
  split; [exact Hs|]. split; [exact Hc|].
  split; [|split; [|split; [|split; [|split; [|split]]]]].
  - intros Hn Hne. rewrite Hres, resolved_statusCode. cbv zeta. rewrite Hv, Hn, Hs.
    assert (Hr : asRedirectDescriber (convert C x) = None).
    { unfold asStatusCodeDescriber in Hn. unfold asRedirectDescriber.
      destruct (convert C x); [now rewrite Hn|reflexivity]. }
    rewrite Hr. destruct (Z.eqb_spec explicit 0); [contradiction|].
    destruct (location r); reflexivity.
  - intros code Hn Hne. rewrite Hres, resolved_statusCode. cbv zeta. rewrite Hv, Hn.
    destruct (Z.eqb_spec code 0); [contradiction|].
    destruct (location r); [reflexivity|].
    destruct (asRedirectDescriber (convert C x)) as [[code' loc]|] eqn:Er; [|reflexivity].
    unfold asRedirectDescriber in Er. unfold asStatusCodeDescriber in Hn.
    destruct (convert C x) as [y|]; [|discriminate].
    rewrite Hn in Er. destruct (val_Location y); congruence.
  - intros ev code. apply status_events, Hw'.
  - exact Hct.
  - intros key value Hin.
    destruct (In_trace_not_delegated r req _ Hw' Hin) as [Hm|[Hk|[Hr|[Hn|Hb]]]].
    + apply In_writeMeta in Hm. destruct Hm as (? & ? & ? & _ & _ & ?). discriminate.
    + apply In_writeCookies in Hk. destruct Hk as (? & ?). discriminate.
    + destruct Hr as (? & _ & ?). discriminate.
    + destruct Hn as (_ & _ & ?). discriminate.
    + destruct Hb as (_ & _ & [Hb|Hb]).
      * apply In_writeContentType in Hb. destruct Hb as (Hb & Hne).
        rewrite Hc in Hb, Hne. injection Hb as -> ->. auto.
      * apply In_writeBody in Hb.
        destruct Hb as [?|[?|[?|[?|?]]]]; discriminate.
  - intros t mime code Hin.
    destruct (In_trace_not_delegated r req _ Hw' Hin) as [Hm|[Hk|[Hr|[Hn|Hb]]]].
    + apply In_writeMeta in Hm. destruct Hm as (? & ? & ? & _ & _ & ?). discriminate.
    + apply In_writeCookies in Hk. destruct Hk as (? & ?). discriminate.
    + destruct Hr as (? & _ & ?). discriminate.
    + destruct Hn as (_ & _ & ?). discriminate.
    + destruct Hb as (_ & _ & [Hb|Hb]).
      * apply In_writeContentType in Hb. destruct Hb as (? & _). discriminate.
      * apply In_writeBody in Hb.
        destruct Hb as [?|[?|[?|[?|Hb]]]]; try discriminate.
        injection Hb as -> -> ->.
        rewrite (proj2 (proj2 (proj2 (resolved_fields r req)))). exact Hc.
  - intros Hne Hloc Hst.
    rewrite He in Hloc. change (location (resolved C r req) = None) in Hloc.
    rewrite Hres in Hst.
    change (trace d) with (trace (writeResponse C r req)).
    destruct (writeResponse_not_delegated r req Hw') as (_ & rest & -> & Hrest).
    cbv zeta in Hrest. rewrite Hloc in Hrest.
    destruct (Z.eqb_spec (statusCode (resolved C r req)) StatusNoContent); [contradiction|].
    destruct Hrest as (-> & _).
    rewrite !in_app_iff. right; right; left.
    unfold writeContentType. rewrite Hc.
    destruct (String.eqb_spec ct EmptyString); [contradiction|]. now left.
Qed.

(** C3, amended. Let no location be set on the envelope, the value not
    write its own response, and the (error-converted) value have both a
    [StatusCode] and a [Location] method. Then the resolved status and
    location are the ones these methods return, whatever was set or
    defaulted before; when the location is not nil the dispatcher
    redirects to it with that status after the headers and cookies, and
    no step of the body is run. *)
Theorem C3_redirect_capability r req code loc :
  asResponseWriter (v r) = None ->
  location r = None ->
  asRedirectDescriber (convert C (v r)) = Some (code, loc) ->
  let d := WriteResponse C r req in
  asStatusCodeDescriber (convert C (v r)) = Some code
  /\ statusCode (envelope d) = code
  /\ location (envelope d) = loc
  /\ forall url, loc = Some url ->
       trace d = writeMeta C r ++ writeCookies r ++ [HttpRedirect url code]
       /\ returned d = None
       /\ forall ev, In ev (trace d) -> isBodyStep ev = false.
Proof.
  intros Hw Hl Hr d.
  assert (He : envelope d = set_v None (resolved C r req))
    by apply envelope_not_delegated, Hw.
  assert (Hs : statusCode (resolved C r req) = code).
  { rewrite resolved_statusCode. cbv zeta. now rewrite Hl, Hr. }
  assert (Hloc : location (resolved C r req) = loc).
  { rewrite resolved_location. now rewrite Hl, Hr. }
  split; [|split; [|split]].
  - unfold asRedirectDescriber in Hr. unfold asStatusCodeDescriber.
    destruct (convert C (v r)) as [y|]; [|discriminate].
    destruct (val_StatusCode y), (val_Location y); congruence.
  - now rewrite He.
  - now rewrite He.
  - intros url ->.
    change (trace d) with (trace (writeResponse C r req)).
    change (returned d) with (returned (writeResponse C r req)).
    destruct (writeResponse_not_delegated r req Hw) as (_ & rest & -> & Hrest).
    cbv zeta in Hrest. rewrite Hloc, Hs in Hrest. destruct Hrest as (-> & ->).
    split; [reflexivity|]. split; [reflexivity|].
    intros ev Hin. rewrite !in_app_iff in Hin. destruct Hin as [Hin|[Hin|Hin]].
    + apply In_writeMeta in Hin. destruct Hin as (? & ? & ? & _ & _ & ->). reflexivity.
    + apply In_writeCookies in Hin. destruct Hin as (? & ->). reflexivity.
    + destruct Hin as [<-|[]]. reflexivity.
Qed.



End DispatchProperties.


Section DispatchExamples.
Import courierhttp samples.

Lemma C2_default_status_witness :
  statusCode (envelope (WriteResponse C0 (Wrap (Some (plain "Item")) []) POST)) = 201
  /\ statusCode (envelope (WriteResponse C0 (Wrap (Some (plain "Item")) []) GET)) = 200
  /\ statusCode (envelope (WriteResponse C0 (Wrap None []) GET)) = 204.
Proof.
  split; [|split].
  - apply (C2_default_status C0 (Wrap (Some (plain "Item")) []) POST); try reflexivity.
    intros x E. injection E as <-. split; reflexivity.
  - apply (C2_default_status C0 (Wrap (Some (plain "Item")) []) GET); try reflexivity.
    intros x E. injection E as <-. split; reflexivity.
  - apply (C2_default_status C0 (Wrap None []) GET); try reflexivity.
    intros x E. discriminate E.
Defined.

(** C2 as stated fails: a value that writes its own response is not an
    error, has no [StatusCode] method, no status code is set, and the
    dispatcher resolves no status at all. *)
Lemma C2_counterexample :
  let r := Wrap (Some responder) [] in
  let d := WriteResponse C0 r GET in
  val_isError responder = false /\ val_StatusCode responder = None
  /\ val_Location responder = None /\ statusCode r = 0
  /\ statusCode (envelope d) = 0 /\ statusCode (envelope d) <> 200
  /\ trace d = [Delegated].
Proof. cbv zeta. repeat split; try reflexivity. vm_compute. discriminate. Qed.

Lemma C1_explicit_settings_witness :
  let d := WriteResponse C0
             (Wrap (Some (plain "Item")) [WithContentType "text/plain"; WithStatusCode 202])
             GET in
  statusCode (envelope d) = 202
  /\ In (HeaderSet "Content-Type" "text/plain") (trace d).
Proof.
  cbv zeta.
  pose proof (C1_explicit_settings C0 (Some (plain "Item"))
                [WithContentType "text/plain"; WithStatusCode 202] GET eq_refl) as H.
  cbv zeta in H.
  destruct H as (_ & _ & H1 & _ & _ & _ & _ & _ & H2).
  split.
  - apply H1; [reflexivity|discriminate].
  - apply H2; [discriminate|reflexivity|discriminate].
Defined.

(** C1 as stated fails: the status code set with [WithStatusCode] is
    replaced by the one the value's [StatusCode] method returns, and for
    an error by the one of the converted status error. *)
Lemma C1_counterexample :
  let r := Wrap (Some (describer 404)) [WithStatusCode 202] in
  let r' := Wrap (Some failure) [WithStatusCode 200] in
  statusCode r = 202
  /\ statusCode (envelope (WriteResponse C0 r GET)) = 404
  /\ trace (WriteResponse C0 r GET) = [Encode (Some "Describer") EmptyString 404]
  /\ statusCode r' = 200
  /\ statusCode (envelope (WriteResponse C0 r' GET)) = 500.
Proof. cbv zeta. repeat split; reflexivity. Qed.

Lemma C3_redirect_capability_witness :
  let r := Wrap (Some (redirector 302 (Some "/login"))) [WithStatusCode 200] in
  let d := WriteResponse C0 r GET in
  statusCode (envelope d) = 302
  /\ location (envelope d) = Some "/login"
  /\ trace d = [HttpRedirect "/login" 302].
Proof.
  cbv zeta.
  pose proof (C3_redirect_capability C0
                (Wrap (Some (redirector 302 (Some "/login"))) [WithStatusCode 200])
                GET 302 (Some "/login") eq_refl eq_refl eq_refl) as H.
  cbv zeta in H. destruct H as (_ & H1 & H2 & H3).
  split; [exact H1|]. split; [exact H2|].
  exact (proj1 (H3 "/login" eq_refl)).
Defined.

(** C3 as stated fails twice: when [Location] returns nil no redirect is
    issued and the body is written; when the value writes its own
    response nothing is resolved. *)
Lemma C3_counterexample :
  let r := Wrap (Some (redirector 302 None)) [] in
  let d := WriteResponse C0 r GET in
  let x := mkValue "Both" (Some (fun _ => None)) false (Some 302) (Some (Some "/login"))
                   None None None false in
  let d' := WriteResponse C0 (Wrap (Some x) []) GET in
  location r = None
  /\ asRedirectDescriber (Some (redirector 302 None)) = Some (302, None)
  /\ trace d = [Encode (Some "Redirector") EmptyString 302]
  /\ (forall url code, ~ In (HttpRedirect url code) (trace d))
  /\ asRedirectDescriber (Some x) = Some (302, Some "/login")
  /\ statusCode (envelope d') = 0 /\ location (envelope d') = None
  /\ trace d' = [Delegated].
Proof.
  cbv zeta. repeat split; try reflexivity.
  intros url code [H|[]]. discriminate H.
Qed.



End DispatchExamples.


(** * Properties of the scanner *)

Section PathProperties.
Import regexp.

Lemma append_cons (x : ascii) (a b : string) : String x a +:+ b = String x (a +:+ b).
Proof. reflexivity. Qed.

Lemma append_assoc (a b c : string) : (a +:+ b) +:+ c = a +:+ (b +:+ c).
Proof.
  induction a as [|x a IH]; [reflexivity|].
  rewrite !append_cons. f_equal. exact IH.
Qed.

Lemma append_empty_r (a : string) : a +:+ EmptyString = a.
Proof.
  induction a as [|x a IH]; [reflexivity|].
  rewrite append_cons. f_equal. exact IH.
Qed.

Lemma length_append (a b : string) :
  String.length (a +:+ b) = (String.length a + String.length b)%nat.
Proof.
  induction a as [|x a IH]; [reflexivity|].
  rewrite append_cons. simpl. now rewrite IH.
Qed.

(** The capture group stops at a boundary. *)
Lemma spanName_boundary q rest :
  atBoundary rest = true ->
  spanName (q +:+ rest) = (fst (spanName q), snd (spanName q) +:+ rest).
Proof.
  intros Hb. induction q as [|c q IH]; simpl.
  - destruct rest as [|c rest]; [reflexivity|]. simpl in Hb. simpl. now rewrite Hb.
  - destruct (Ascii.eqb c slash); [reflexivity|].
    rewrite IH. destruct (spanName q). reflexivity.
Qed.

Lemma spanName_noSlash name : noSlash name = true -> spanName name = (name, EmptyString).
Proof.
  induction name as [|c name IH]; simpl; [reflexivity|].
  intros H. apply andb_prop in H. destruct H as (Hc & Hn).
  apply negb_true_iff in Hc. rewrite Hc, (IH Hn). reflexivity.
Qed.

Lemma spanName_length s :
  (String.length (fst (spanName s)) <= String.length s)%nat.
Proof.
  induction s as [|c s IH]; simpl; [lia|].
  destruct (Ascii.eqb c slash); simpl; [lia|].
  destruct (spanName s). simpl in *. lia.
Qed.

(** A match looks at nothing beyond the next boundary. *)
Lemma matchHere_boundary c p rest :
  atBoundary rest = true ->
  matchHere (String c p +:+ rest) = matchHere (String c p).
Proof.
  intros Hb. destruct p as [|mark q]; simpl.
  - destruct rest as [|c' rest]; [reflexivity|].
    simpl in Hb. apply Ascii.eqb_eq in Hb. subst c'.
    destruct (Ascii.eqb c slash); reflexivity.
  - destruct (Ascii.eqb c slash && isMarker mark); [|reflexivity].
    rewrite (spanName_boundary q rest Hb). destruct (spanName q) as [name after].
    simpl. destruct name; reflexivity.
Qed.

Lemma matchHere_length s matched name :
  matchHere s = Some (matched, name) -> (String.length matched <= String.length s)%nat.
Proof.
  destruct s as [|c [|mark q]]; simpl; try discriminate.
  destruct (Ascii.eqb c slash && isMarker mark); [|discriminate].
  pose proof (spanName_length q) as L.
  destruct (spanName q) as [n after]. simpl in L.
  destruct n; [discriminate|]. intros E. injection E as <- _. simpl in *. lia.
Qed.

Lemma matchHere_segment mark name rest :
  isMarker mark = true -> name <> EmptyString -> noSlash name = true ->
  atBoundary rest = true ->
  matchHere (segment mark name +:+ rest) = Some (segment mark name, name).
Proof.
  intros Hm Hne Hn Hb. unfold segment.
  rewrite matchHere_boundary by exact Hb. simpl.
  rewrite ?Ascii.eqb_refl, Hm. simpl. rewrite (spanName_noSlash name Hn).
  destruct name; [contradiction|reflexivity].
Qed.

Lemma replaceFrom_skip repl x k rest :
  replaceFrom repl (String.length x + k) (x +:+ rest) = replaceFrom repl k rest.
Proof. induction x as [|c x IH]; simpl; [reflexivity|exact IH]. Qed.

(** Replacement up to a boundary does not depend on what follows it. *)
Lemma replaceFrom_boundary repl rest :
  atBoundary rest = true ->
  forall pre k, (k <= String.length pre)%nat ->
    replaceFrom repl k (pre +:+ rest)
    = replaceFrom repl k pre +:+ replaceFrom repl O rest.
Proof.
  intros Hb. induction pre as [|c p IH]; intros k Hk.
  - simpl in Hk. assert (k = O) by lia. subst k. reflexivity.
  - destruct k as [|k].
    + change (String c p +:+ rest) with (String c (p +:+ rest)).
      cbn [replaceFrom].
      change (String c (p +:+ rest)) with (String c p +:+ rest).
      rewrite (matchHere_boundary c p rest Hb).
      destruct (matchHere (String c p)) as [[matched name]|] eqn:E.
      * apply matchHere_length in E. simpl in E.
        rewrite IH by lia. now rewrite append_assoc.
      * rewrite IH by lia. reflexivity.
    + simpl. apply IH. simpl in Hk. lia.
Qed.

Lemma replaceFrom_segment repl mark name rest :
  isMarker mark = true -> name <> EmptyString -> noSlash name = true ->
  atBoundary rest = true ->
  replaceFrom repl O (segment mark name +:+ rest)
  = repl (segment mark name) +:+ replaceFrom repl O rest.
Proof.
  intros Hm Hne Hn Hb.
  pose proof (matchHere_segment mark name rest Hm Hne Hn Hb) as E.
  unfold segment in *.
  change (String slash (String mark name) +:+ rest)
    with (String slash (String mark name +:+ rest)) in *.
  cbn [replaceFrom]. rewrite E. f_equal.
  replace (String.length (String slash (String mark name)) - 1)%nat
    with (String.length (String mark name) + 0)%nat by (simpl; lia).
  apply replaceFrom_skip.
Qed.

Lemma FindStringSubmatch_segment mark name :
  isMarker mark = true -> name <> EmptyString -> noSlash name = true ->
  FindStringSubmatch (segment mark name) = Some (segment mark name, name).
Proof.
  intros Hm Hne Hn.
  pose proof (matchHere_segment mark name EmptyString Hm Hne Hn eq_refl) as E.
  rewrite append_empty_r in E. unfold segment in *.
  cbn [FindStringSubmatch]. now rewrite E.
Qed.

End PathProperties.

Section PatchPathProperties.
Import regexp openapi.

Lemma isParameterDefined_fold name ps acc :
  fold_left (fun defined p =>
               if String.eqb (param_In p) "path" && String.eqb (param_Name p) name
               then true else defined) ps acc
  = acc || existsb (fun p => String.eqb (param_In p) "path" && String.eqb (param_Name p) name) ps.
Proof.
  revert acc. induction ps as [|p ps IH]; intros acc; simpl.
  - now rewrite orb_false_r.
  - rewrite IH. destruct (String.eqb (param_In p) "path" && String.eqb (param_Name p) name);
      simpl; [now rewrite orb_true_r|reflexivity].
Qed.

Lemma isParameterDefined_spec name op :
  isParameterDefined name op = true <-> declaresPathParameter op name.
Proof.
  unfold isParameterDefined, declaresPathParameter.
  rewrite isParameterDefined_fold. simpl. rewrite existsb_exists.
  split; intros (p & Hin & H); exists p; (split; [exact Hin|]).
  - apply andb_prop in H. destruct H as (H1 & H2).
    apply String.eqb_eq in H1, H2. now split.
  - destruct H as (-> & ->). now rewrite !String.eqb_refl.
Qed.

Lemma patchSegment_segment op mark name :
  isMarker mark = true -> name <> EmptyString -> noSlash name = true ->
  patchSegment op (segment mark name)
  = if isParameterDefined name op then "/{" +:+ name +:+ "}" else "/0".
Proof.
  intros Hm Hne Hn. unfold patchSegment.
  now rewrite (FindStringSubmatch_segment mark name Hm Hne Hn).
Qed.

(** C6. A segment of the route path in router syntax, that is a slash, a
    marker [:] or [*] and a name that runs to the next slash or to the
    end, is rewritten to [/{name}] when the operation declares a path
    parameter of exactly that name and to [/0] otherwise; what stands
    before and after it is rewritten on its own. With [id] the only
    declared path parameter, [/users/:id/orders/*rest] becomes
    [/users/{id}/orders/0]. *)
Theorem C6_patchPath_segments op pre mark name rest :
  isMarker mark = true -> name <> EmptyString -> noSlash name = true ->
  atBoundary rest = true ->
  patchPath (pre +:+ segment mark name +:+ rest) op
  = patchPath pre op
      +:+ (if isParameterDefined name op then "/{" +:+ name +:+ "}" else "/0")
      +:+ patchPath rest op
  /\ (isParameterDefined name op = true <-> declaresPathParameter op name)
  /\ (forall op', declaresPathParameter op' "id" -> ~ declaresPathParameter op' "rest" ->
        patchPath "/users/:id/orders/*rest" op' = "/users/{id}/orders/0").
Proof.
  intros Hm Hne Hn Hb.
  assert (Hseg : forall op0 pre0 mark0 name0 rest0,
             isMarker mark0 = true -> name0 <> EmptyString -> noSlash name0 = true ->
             atBoundary rest0 = true ->
             patchPath (pre0 +:+ segment mark0 name0 +:+ rest0) op0
             = patchPath pre0 op0
                 +:+ (if isParameterDefined name0 op0
                      then "/{" +:+ name0 +:+ "}" else "/0")
                 +:+ patchPath rest0 op0).
  { intros op0 pre0 mark0 name0 rest0 Hm0 Hne0 Hn0 Hb0.
    unfold patchPath, ReplaceAllStringFunc.
    rewrite replaceFrom_boundary; [|reflexivity|lia].
    rewrite (replaceFrom_segment _ mark0 name0 rest0 Hm0 Hne0 Hn0 Hb0).
    now rewrite (patchSegment_segment op0 mark0 name0 Hm0 Hne0 Hn0). }
  split; [now apply Hseg|]. split; [apply isParameterDefined_spec|].
  intros op' Hid Hrest.
  apply isParameterDefined_spec in Hid.
  assert (Hr : isParameterDefined "rest" op' = false).
  { destruct (isParameterDefined "rest" op') eqn:E; [|reflexivity].
    apply isParameterDefined_spec in E. contradiction. }
  change "/users/:id/orders/*rest"
    with ("/users" +:+ segment ":" "id" +:+ ("/orders" +:+ segment "*" "rest" +:+ EmptyString)).
  rewrite Hseg by (reflexivity || discriminate).
  rewrite Hseg by (reflexivity || discriminate).
  rewrite Hid, Hr. reflexivity.
Qed.

End PatchPathProperties.

Section PatchPathExamples.
Import regexp openapi.

Lemma C6_patchPath_segments_witness :
  let op := AddParameter (QueryParameter "rest" None false)
              (AddParameter (PathParameter "id" None) (NewOperation "ListOrders")) in
  patchPath "/users/:id/orders/*rest" op = "/users/{id}/orders/0"
  /\ patchPath "/users/:id" op = "/users/{id}"
  /\ patchPath "/files/*path" op = "/files/0".
Proof.
  cbv zeta.
  set (op := AddParameter _ _).
  split; [|split].
  - apply (C6_patchPath_segments op EmptyString ":" "id" EmptyString);
      try reflexivity; try discriminate.
    + exists (PathParameter "id" None). repeat split. now left.
    + intros (p & Hin & Hp & Hname).
      destruct Hin as [<-|[<-|[]]]; discriminate.
  - exact (proj1 (C6_patchPath_segments op "/users" ":" "id" EmptyString
                    eq_refl ltac:(discriminate) eq_refl eq_refl)).
  - exact (proj1 (C6_patchPath_segments op "/files" "*" "path" EmptyString
                    eq_refl ltac:(discriminate) eq_refl eq_refl)).
Defined.

End PatchPathExamples.

Section ScannerProperties.
Import openapi.
Variable C : Collaborators.

(** *** Loops that may panic *)

Lemma bind_assoc {A B D} (x : Outcome A) (f : A -> Outcome B) (g : B -> Outcome D) :
  bind (bind x f) g = bind x (fun a => bind (f a) g).
Proof. destruct x; reflexivity. Qed.

Lemma bind_ext {A B} (x : Outcome A) (f g : A -> Outcome B) :
  (forall a, x = Returned a -> f a = g a) -> bind x f = bind x g.
Proof. destruct x; simpl; auto. Qed.

Lemma bind_panics {A B} (x : Outcome A) (f : A -> Outcome B) :
  (forall a, exists e, f a = Panicked e) -> exists e, bind x f = Panicked e.
Proof. intros H. destruct x as [a|e]; simpl; [apply H|now exists e]. Qed.

Lemma each_app {A S} (body : S -> A -> Outcome S) xs ys st :
  each body (xs ++ ys) st = bind (each body xs st) (each body ys).
Proof.
  revert st. induction xs as [|x xs IH]; intros st; simpl; [reflexivity|].
  rewrite bind_assoc. apply bind_ext. intros a _. apply IH.
Qed.

(** A loop keeps what each of its rounds keeps. *)
Lemma each_invariant {A S} (body : S -> A -> Outcome S) (P : S -> Prop) xs :
  (forall st x st', In x xs -> P st -> body st x = Returned st' -> P st') ->
  forall st st', P st -> each body xs st = Returned st' -> P st'.
Proof.
  induction xs as [|x xs IH]; intros Hbody st st' HP; simpl.
  - intros E. injection E as <-. exact HP.
  - destruct (body st x) as [st1|e] eqn:E; simpl; [|discriminate].
    apply IH.
    + intros st0 y st0' Hy. apply Hbody. now right.
    + apply (Hbody st x st1); auto. now left.
Qed.

(** *** What the steps of the scanner leave unchanged *)

Lemma opt_naming_Record typeRef b : opt_naming (fst (Record_ typeRef b)) = opt_naming b.
Proof. reflexivity. Qed.

Lemma opt_naming_RegisterSchema ref s b : opt_naming (RegisterSchema ref s b) = opt_naming b.
Proof. unfold RegisterSchema. destruct (_ !! _); reflexivity. Qed.

Lemma opt_naming_SchemaFromType t def b :
  opt_naming (fst (SchemaFromType C t def b)) = opt_naming b.
Proof.
  unfold SchemaFromType. simpl.
  generalize (ex_registered (SchemaFrom C (RefString b) (m b) t def)).
  generalize (ex_recorded (SchemaFrom C (RefString b) (m b) t def)).
  intros recs regs.
  assert (H1 : forall b0, opt_naming (fold_left (fun b typeRef => fst (Record_ typeRef b)) recs b0)
                          = opt_naming b0).
  { induction recs as [|x recs IH]; intros b0; simpl; [reflexivity|]. now rewrite IH. }
  assert (H2 : forall b0, opt_naming (fold_left (fun b reg => RegisterSchema (fst reg) (snd reg) b)
                                                regs b0) = opt_naming b0).
  { induction regs as [|x regs IH]; intros b0; simpl; [reflexivity|].
    rewrite IH. apply opt_naming_RegisterSchema. }
  now rewrite H2, H1.
Qed.

Lemma scanField_keeps docer b op vf b' op' :
  scanField C docer (b, op) vf = Returned (b', op') -> keepsOperation op op'.
Proof.
  unfold scanField, keepsOperation.
  destruct (String.eqb _ EmptyString); [discriminate|].
  destruct (NewTransformer C _ _) as [err|tf]; [discriminate|].
  destruct (SchemaFromType C (field_Type (field vf)) false b) as [b1 schema].
  destruct (String.eqb _ "body").
  - destruct (op_RequestBody op); destruct (courierhttp.Names tf); try discriminate;
      intros E; injection E as <- <-; split; reflexivity.
  - repeat match goal with
           | |- context [if ?c then _ else _] => destruct c
           end; intros E; injection E as <- <-; split; reflexivity.
Qed.

Lemma scanParameterOrRequestBody_keeps b op t b' op' :
  scanParameterOrRequestBody C b op t = Returned (b', op') -> keepsOperation op op'.
Proof.
  unfold scanParameterOrRequestBody. intros E.
  apply (each_invariant (scanField C (RuntimeDoc t))
           (fun st => keepsOperation op (snd st)) (EachField t)) with (st := (b, op)) in E.
  - exact E.
  - intros [b0 op0] vf [b1 op1] _ (H1 & H2) E'. simpl in *.
    apply scanField_keeps in E'. destruct E' as (H3 & H4). split; congruence.
  - split; reflexivity.
Qed.

Lemma fold_addErrorResponse_OperationId first entries st :
  OperationId (snd (fold_left (addErrorResponse C first) entries st)) = OperationId (snd st).
Proof.
  revert st. induction entries as [|entry entries IH]; intros st; simpl; [reflexivity|].
  rewrite IH. unfold addErrorResponse.
  destruct (SchemaFromType C _ _ _). reflexivity.
Qed.

Lemma scanResponse_OperationId b op fac :
  OperationId (snd (scanResponse C b op fac)) = OperationId op.
Proof.
  unfold scanResponse.
  destruct (String.eqb _ EmptyString); [reflexivity|].
  match goal with
  | |- context [let (_, _) := ?x in _] => destruct x as [b1 resp]
  end.
  unfold scanResponseErrors.
  destruct (can_ResponseErrors _) as [[|first rest]|]; try reflexivity.
  now rewrite fold_addErrorResponse_OperationId.
Qed.

Lemma scanOperator_OperationId st fac st' :
  scanOperator C st fac = Returned st' -> OperationId (snd st') = OperationId (snd st).
Proof.
  unfold scanOperator.
  destruct (scanParameterOrRequestBody C (fst st) (snd st) (of_Type fac)) as [[b1 op1]|e] eqn:E;
    simpl; [|discriminate].
  apply scanParameterOrRequestBody_keeps in E. destruct E as (E & _).
  destruct (IsLast fac); intros H; injection H as <-.
  - now rewrite scanResponse_OperationId.
  - exact E.
Qed.

Lemma each_scanOperator_OperationId ops st st' :
  each (scanOperator C) ops st = Returned st' -> OperationId (snd st') = OperationId (snd st).
Proof.
  intros E.
  apply (each_invariant (scanOperator C)
           (fun st0 => OperationId (snd st0) = OperationId (snd st)) ops) in E; auto.
  intros st0 fac st1 _ H0 H1. apply scanOperator_OperationId in H1. congruence.
Qed.




(** C9. When the handler of the terminal operator has no [Method]
    method, [scanResponse] leaves the operation (and the scanner) as they
    were, whatever the other response capabilities of the handler say;
    the operation that [scan] then records for the route has no response
    at all. *)
Theorem C9_no_method_no_response fac :
  can_Method (of_Operator fac) = None ->
  (forall b op, scanResponse C b op fac = (b, op))
  /\ (forall r rh opsBefore b b',
        NewRouteHandler r = inr rh ->
        rh_Operators rh = opsBefore ++ [fac] ->
        (forall fac', In fac' opsBefore -> IsLast fac' = false) ->
        scan C b r = Returned (b', None) ->
        exists op, operationAt (o b') (ToLower (rh_Method rh)) (patchPath (rh_Path rh) op)
                   = Some op
                   /\ OperationId op = rh_OperationID rh
                   /\ op_Responses op = ∅).
Proof.
  intros Hm.
  assert (Hresp : forall b op, scanResponse C b op fac = (b, op)).
  { intros b op. unfold scanResponse. rewrite Hm. reflexivity. }
  split; [exact Hresp|].
  intros r rh opsBefore b b' Hrh Hops Hbefore.
  unfold scan. rewrite Hrh.
  destruct (each (scanOperator C) (rh_Operators rh) (b, newOperation rh))
    as [[b1 op1]|e] eqn:E; simpl; [|discriminate].
  intros H. injection H as <-.
  exists op1. split; [|split].
  - unfold operationAt, AddOperation. simpl.
    rewrite lookup_insert_eq. apply lookup_insert_eq.
  - apply each_scanOperator_OperationId in E. exact E.
  - apply (each_invariant (scanOperator C)
             (fun st => op_Responses (snd st) = ∅)) in E; [exact E| |reflexivity].
    intros [b2 op2] fac' [b3 op3] Hin H2. simpl in H2. unfold scanOperator.
    destruct (scanParameterOrRequestBody C _ _ _) as [[b4 op4]|e'] eqn:E'; simpl;
      [|discriminate].
    apply scanParameterOrRequestBody_keeps in E'. destruct E' as (_ & E'). simpl in E'.
    rewrite Hops in Hin. apply in_app_or in Hin. destruct Hin as [Hin|[<-|[]]].
    + rewrite (Hbefore _ Hin). intros H. injection H as <- <-. simpl. congruence.
    + destruct (IsLast fac); intros H.
      * rewrite Hresp in H. injection H as <- <-. simpl. congruence.
      * injection H as <- <-. simpl. congruence.
Qed.

(** *** The error responses *)

Lemma groupCodes_fold code errs :
  forall acc : gmap Z (list string),
    fold_left (fun codes err =>
                 let e := FromErr C err in
                 let old := match codes !! courierhttp.se_StatusCode e with
                            | Some l => l
                            | None => []
                            end in
                 <[courierhttp.se_StatusCode e := old ++ [courierhttp.se_Summary e]]> codes)
              errs acc !! code
    = match summariesFor C code errs with
      | [] => acc !! code
      | l => Some (match acc !! code with Some old => old | None => [] end ++ l)
      end.
Proof.
  unfold summariesFor.
  induction errs as [|err errs IH]; intros acc; [reflexivity|].
  cbn [fold_left map List.filter]. rewrite IH. clear IH.
  destruct (Z.eqb_spec (courierhttp.se_StatusCode (FromErr C err)) code) as [E|E].
  - rewrite E, lookup_insert_eq. cbn [map].
    destruct (map courierhttp.se_Summary _) as [|x l]; [reflexivity|].
    now rewrite <- app_assoc.
  - rewrite lookup_insert_ne by exact E. reflexivity.
Qed.

Lemma groupCodes_lookup code errs :
  groupCodes C errs !! code
  = match summariesFor C code errs with [] => None | l => Some l end.
Proof.
  unfold groupCodes. rewrite groupCodes_fold, lookup_empty.
  destruct (summariesFor C code errs); reflexivity.
Qed.

Lemma addErrorResponse_spec first st entry :
  let st' := addErrorResponse C first st entry in
  opt_naming (fst st') = opt_naming (fst st)
  /\ op_Responses (snd st')
     = <[fst entry := errorResponse (snd (SchemaFromType C (courierhttp.val_type first)
                                                          false (fst st)))
                                    (snd entry)]> (op_Responses (snd st)).
Proof.
  unfold addErrorResponse.
  pose proof (opt_naming_SchemaFromType (courierhttp.val_type first) false (fst st)) as H.
  destruct (SchemaFromType C _ _ _) as [b schema]. simpl in *. split; [exact H|reflexivity].
Qed.

Lemma fold_addErrorResponse_spec first entries :
  NoDup (map fst entries) ->
  forall st,
    let st' := fold_left (addErrorResponse C first) entries st in
    opt_naming (fst st') = opt_naming (fst st)
    /\ (forall code summaries, In (code, summaries) entries ->
          exists b', opt_naming b' = opt_naming (fst st)
                     /\ op_Responses (snd st') !! code
                        = Some (errorResponse
                                  (snd (SchemaFromType C (courierhttp.val_type first) false b'))
                                  summaries))
    /\ (forall code, ~ In code (map fst entries) ->
          op_Responses (snd st') !! code = op_Responses (snd st) !! code).
Proof.
  induction entries as [|entry entries IH]; intros Hnd st; cbn [fold_left].
  - split; [reflexivity|]. split; [intros ? ? []|reflexivity].
  - cbn [map] in Hnd. apply NoDup_cons in Hnd. destruct Hnd as (Hnotin & Hnd).
    destruct (addErrorResponse_spec first st entry) as (Hn1 & Hr1). cbv zeta in Hn1, Hr1.
    destruct (IH Hnd (addErrorResponse C first st entry)) as (Hn & Hin & Hout).
    cbv zeta in Hn, Hin, Hout.
    split; [congruence|]. split.
    + intros code summaries [->|Hmem].
      * exists (fst st). split; [reflexivity|].
        rewrite Hout, Hr1 by (rewrite <- list_elem_of_In; exact Hnotin).
        apply lookup_insert_eq.
      * destruct (Hin code summaries Hmem) as (b' & Hb' & Hl).
        exists b'. split; [congruence|exact Hl].
    + intros code Hnot. cbn [map] in Hnot.
      rewrite Hout by (intros H; apply Hnot; now right).
      rewrite Hr1. apply lookup_insert_ne. intros E. apply Hnot. now left.
Qed.

Lemma rangeCodes_NoDup codes : NoDup (map fst (rangeCodes C codes)).
Proof.
  change (map fst (rangeCodes C codes)) with ((rangeCodes C codes).*1).
  rewrite (rangeCodes_perm C codes). apply NoDup_fst_map_to_list.
Qed.

Lemma In_rangeCodes codes code summaries :
  In (code, summaries) (rangeCodes C codes) <-> codes !! code = Some summaries.
Proof.
  rewrite <- list_elem_of_In, (rangeCodes_perm C codes). apply elem_of_map_to_list.
Qed.

Lemma In_fst_rangeCodes codes code :
  In code (map fst (rangeCodes C codes)) <-> is_Some (codes !! code).
Proof.
  rewrite in_map_iff. split.
  - intros ([c l] & <- & H). apply In_rangeCodes in H. simpl. now exists l.
  - intros (l & H). exists (code, l). split; [reflexivity|]. now apply In_rangeCodes.
Qed.

(** With a verb, [scanResponse] is the scan of the same operator without
    sentinel errors, followed by the loop over the grouped codes. *)
Lemma scanResponse_with_errors b op fac method returnErrors :
  can_Method (of_Operator fac) = Some method -> method <> EmptyString ->
  can_ResponseErrors (of_Operator fac) = Some returnErrors ->
  scanResponse C b op fac
  = match returnErrors with
    | first :: _ =>
        fold_left (addErrorResponse C first) (rangeCodes C (groupCodes C returnErrors))
                  (scanResponse C b op (withoutErrors fac))
    | [] => scanResponse C b op (withoutErrors fac)
    end.
Proof.
  intros Hm Hne He. unfold scanResponse, withoutErrors. cbn [of_Operator can_Method
    can_ResponseStatusCode can_ResponseContentType can_ResponseContent can_ResponseErrors].
  rewrite Hm. destruct (String.eqb_spec method EmptyString) as [|_]; [contradiction|].
  match goal with
  | |- context [let (_, _) := ?x in _] => destruct x as [b1 resp]
  end.
  unfold scanResponseErrors. cbn [can_ResponseErrors]. rewrite He.
  destruct returnErrors; reflexivity.
Qed.

(** C8, amended. Let the terminal handler declare an HTTP verb and
    expose sentinel errors. Compared with the same handler without
    sentinel errors, the operation gets one error response for each
    status code some error converts to: it lists, in the order of the
    errors, the summaries of all errors converting to that code, and its
    schema is the one extracted for the type of the first error of the
    whole set. The entries of every other status code are untouched, so
    the status codes of the responses are those of the handler without
    errors and those of the errors. *)
Theorem C8_error_responses b op fac method returnErrors :
  can_Method (of_Operator fac) = Some method -> method <> EmptyString ->
  can_ResponseErrors (of_Operator fac) = Some returnErrors ->
  let base := snd (scanResponse C b op (withoutErrors fac)) in
  let op' := snd (scanResponse C b op fac) in
  (forall code first,
      hd_error returnErrors = Some first ->
      summariesFor C code returnErrors <> [] ->
      exists b', opt_naming b' = opt_naming b
                 /\ op_Responses op' !! code
                    = Some (errorResponse
                              (snd (SchemaFromType C (courierhttp.val_type first) false b'))
                              (summariesFor C code returnErrors)))
  /\ (forall code, summariesFor C code returnErrors = [] ->
        op_Responses op' !! code = op_Responses base !! code)
  /\ (forall code,
        is_Some (op_Responses op' !! code)
        <-> is_Some (op_Responses base !! code)
            \/ exists err, In err returnErrors
                           /\ courierhttp.se_StatusCode (FromErr C err) = code).
Proof.
  intros Hm Hne He base op'.
  assert (Hnaming : opt_naming (fst (scanResponse C b op (withoutErrors fac))) = opt_naming b).
  { unfold scanResponse, withoutErrors. cbn [of_Operator can_Method
      can_ResponseStatusCode can_ResponseContentType can_ResponseContent can_ResponseErrors].
    destruct (String.eqb _ EmptyString); [reflexivity|].
    destruct (can_ResponseContent (of_Operator fac)) as [[rt|]|]; try reflexivity.
    pose proof (opt_naming_SchemaFromType rt false b) as H.
    destruct (SchemaFromType C rt false b). exact H. }
  assert (Hsome : forall code,
             summariesFor C code returnErrors <> []
             <-> exists err, In err returnErrors
                             /\ courierhttp.se_StatusCode (FromErr C err) = code).
  { intros code. unfold summariesFor. split.
    - intros H.
      destruct (List.filter _ _) as [|e l] eqn:E; [now destruct H|].
      assert (Hin : In e (List.filter (fun e => courierhttp.se_StatusCode e =? code)
                                      (map (FromErr C) returnErrors)))
        by (rewrite E; now left).
      apply filter_In in Hin. destruct Hin as (Hin & Hc).
      apply in_map_iff in Hin. destruct Hin as (err & <- & Hin).
      exists err. split; [exact Hin|]. now apply Z.eqb_eq.
    - intros (err & Hin & Hc) H.
      assert (Hin' : In (FromErr C err)
                        (List.filter (fun e => courierhttp.se_StatusCode e =? code)
                                     (map (FromErr C) returnErrors))).
      { apply filter_In. split; [now apply in_map|]. now apply Z.eqb_eq. }
      apply (in_map courierhttp.se_Summary) in Hin'. rewrite H in Hin'. destruct Hin'. }
  assert (Hop : op' = snd (scanResponse C b op fac)) by reflexivity.
  rewrite (scanResponse_with_errors b op fac method returnErrors Hm Hne He) in Hop.
  destruct returnErrors as [|first0 rest].
  { (* no error at all: nothing is added *)
    unfold op', base. rewrite (scanResponse_with_errors b op fac method [] Hm Hne He).
    split; [intros code first H; discriminate H|].
    split; [reflexivity|].
    intros code. split; [now left|]. intros [H|(err & [] & _)]. exact H. }
  destruct (fold_addErrorResponse_spec first0
              (rangeCodes C (groupCodes C (first0 :: rest)))
              (rangeCodes_NoDup _) (scanResponse C b op (withoutErrors fac)))
    as (_ & Hin & Hout).
  cbv zeta in Hin, Hout. rewrite <- Hop in Hin, Hout. fold base in Hout.
  assert (Hlookup : forall code,
             summariesFor C code (first0 :: rest) <> [] ->
             groupCodes C (first0 :: rest) !! code
             = Some (summariesFor C code (first0 :: rest))).
  { intros code H. rewrite groupCodes_lookup.
    destruct (summariesFor C code (first0 :: rest)); [now destruct H|reflexivity]. }
  assert (Hnone : forall code,
             summariesFor C code (first0 :: rest) = [] ->
             ~ In code (map fst (rangeCodes C (groupCodes C (first0 :: rest))))).
  { intros code H. rewrite In_fst_rangeCodes, groupCodes_lookup, H.
    intros (? & ?). discriminate. }
  split; [|split].
  - intros code first Hf Hs. injection Hf as <-.
    destruct (Hin code (summariesFor C code (first0 :: rest))) as (b' & Hb' & Hl).
    + apply In_rangeCodes. now apply Hlookup.
    + exists b'. split; [congruence|exact Hl].
  - intros code Hs. apply Hout. now apply Hnone.
  - intros code.
    assert (Hdec : summariesFor C code (first0 :: rest) = []
                   \/ summariesFor C code (first0 :: rest) <> [])
      by (destruct (summariesFor C code (first0 :: rest));
          [left; reflexivity|right; discriminate]).
    destruct Hdec as [Hs|Hs].
    + rewrite (Hout code (Hnone code Hs)). split; [now left|].
      intros [H|H]; [exact H|]. apply Hsome in H. contradiction.
    + split; [intros _; right; now apply Hsome|]. intros _.
      destruct (Hin code (summariesFor C code (first0 :: rest))) as (b' & _ & Hl).
      * apply In_rangeCodes. now apply Hlookup.
      * rewrite Hl. eauto.
Qed.

(** *** The schema registry *)

Lemma schemasOf_RegisterSchema ref s b :
  schemasOf (RegisterSchema ref s b)
  = match schemasOf b !! gostrings.TrimLeft ref schemasPrefix with
    | None => <[gostrings.TrimLeft ref schemasPrefix := s]> (schemasOf b)
    | Some _ => schemasOf b
    end.
Proof.
  unfold RegisterSchema, schemasOf.
  destruct (ComponentsSchemas (o b)) as [schemas|]; simpl;
    destruct (_ !! _); reflexivity.
Qed.

(** Under each key the first registration stays, later ones are dropped. *)
Lemma registrations_first_wins regs b n :
  schemasOf (fold_left (fun b reg => RegisterSchema (fst reg) (snd reg) b) regs b) !! n
  = match schemasOf b !! n with
    | Some s => Some s
    | None => firstRegistered n regs
    end.
Proof.
  revert b. induction regs as [|[ref s] regs IH]; intros b; cbn [fold_left firstRegistered].
  - destruct (schemasOf b !! n); reflexivity.
  - rewrite IH, schemasOf_RegisterSchema. cbn [fst snd].
    destruct (String.eqb_spec (gostrings.TrimLeft ref schemasPrefix) n) as [->|Hne].
    + destruct (schemasOf b !! n) eqn:E; [now rewrite E|].
      now rewrite lookup_insert_eq.
    + destruct (schemasOf b !! gostrings.TrimLeft ref schemasPrefix);
        [reflexivity|].
      now rewrite lookup_insert_ne by exact Hne.
Qed.

(** The key is the name when the name does not start with a byte of the
    cutset. *)
Lemma TrimLeft_keeps_name name :
  match name with
  | EmptyString => True
  | String c _ => gostrings.contains schemasPrefix c = false
  end ->
  gostrings.TrimLeft (schemasPrefix +:+ name) schemasPrefix = name.
Proof.
  intros H. unfold schemasPrefix at 1.
  do 21 (rewrite append_cons; cbn [gostrings.TrimLeft];
         match goal with
         | |- context [gostrings.contains schemasPrefix ?c] =>
             change (gostrings.contains schemasPrefix c) with true
         end; cbv iota).
  change (EmptyString +:+ name) with name.
  destruct name as [|c name]; [reflexivity|].
  cbn [gostrings.TrimLeft]. now rewrite H.
Qed.

End ScannerProperties.

Section ScannerExamples.
Import courierhttp openapi samples.

(** C7. First registration wins per name: the code misses it for names
    that start with a byte of [#/components/schemas/]. [RegisterSchema]
    derives the key with [strings.TrimLeft], which strips every leading
    byte found in that string, not the prefix: the names [cat] and [pet]
    both give the empty key, so the registration of [pet], the first one
    under that name, is dropped, and the document has no entry under
    either name. [strings.TrimPrefix] gives the keys [cat] and [pet]. *)
Theorem C7_TrimLeft_merges_names :
  let b1 := RegisterSchema (RefString sampleScanner "cat") (SchemaOf "Cat") sampleScanner in
  let b2 := RegisterSchema (RefString sampleScanner "pet") (SchemaOf "Pet") b1 in
  RefString sampleScanner "pet" = "#/components/schemas/pet"
  /\ gostrings.TrimLeft (RefString sampleScanner "pet") schemasPrefix = EmptyString
  /\ gostrings.TrimPrefix (RefString sampleScanner "pet") schemasPrefix = "pet"
  /\ schemasOf b1 !! "pet" = None
  /\ schemasOf b2 !! "pet" = None
  /\ schemasOf b2 !! "cat" = None
  /\ schemasOf b2 = {[ EmptyString := SchemaOf "Cat" ]}.
Proof. cbv zeta. repeat split; vm_compute; reflexivity. Qed.


Lemma C9_no_method_no_response_witness :
  let fac := mkOperatorFactory (mkStructType "example.com/apis/item" [] None) noVerb true in
  scanResponse S0 sampleScanner (NewOperation "GetItem") fac
  = (sampleScanner, NewOperation "GetItem").
Proof.
  cbv zeta.
  apply (proj1 (C9_no_method_no_response S0
                  (mkOperatorFactory (mkStructType "example.com/apis/item" [] None)
                                     noVerb true) eq_refl)).
Defined.

Lemma C8_error_responses_witness :
  let fac := mkOperatorFactory (mkStructType "example.com/apis/item" [] None)
                               threeErrors true in
  let op' := snd (scanResponse S0 sampleScanner (NewOperation "GetItem") fac) in
  op_Responses op' !! 404
  = Some (errorResponse (Some (SchemaOf "ErrNotFoundA")) ["not_found_a"; "not_found_b"])
  /\ op_Responses op' !! 500
     = Some (errorResponse (Some (SchemaOf "ErrNotFoundA")) ["internal"])
  /\ dom (op_Responses op') = {[ 200; 404; 500 ]}.
Proof.
  cbv zeta.
  set (fac := mkOperatorFactory _ _ _).
  pose proof (C8_error_responses S0 sampleScanner (NewOperation "GetItem") fac "GET"
                [errNotFoundA; errNotFoundB; errInternal]
                eq_refl ltac:(discriminate) eq_refl) as H.
  cbv zeta in H. destruct H as (H & _).
  split; [|split].
  - destruct (H 404 errNotFoundA eq_refl ltac:(discriminate)) as (b' & _ & Hl).
    exact Hl.
  - destruct (H 500 errNotFoundA eq_refl ltac:(discriminate)) as (b' & _ & Hl).
    exact Hl.
  - vm_compute. reflexivity.
Defined.

(** C8 as stated fails: a handler that exposes the three sentinel errors
    but declares no HTTP verb gets no error response, and no response at
    all. *)
Lemma C8_counterexample :
  let fac := mkOperatorFactory (mkStructType "example.com/apis/item" [] None) noVerb true in
  let op' := snd (scanResponse S0 sampleScanner (NewOperation "GetItem") fac) in
  can_ResponseErrors (of_Operator fac) = Some [errNotFoundA; errNotFoundB; errInternal]
  /\ summariesFor S0 404 [errNotFoundA; errNotFoundB; errInternal]
     = ["not_found_a"; "not_found_b"]
  /\ op_Responses op' !! 404 = None
  /\ op_Responses op' !! 500 = None
  /\ op_Responses op' = ∅.
Proof. cbv zeta. repeat split; reflexivity. Qed.

End ScannerExamples.


(** * Further properties of the dispatcher *)

Section DispatchFurther.
Import courierhttp.
Variable C : Collaborators.

Lemma filter_none {A} (f : A -> bool) (l : list A) :
  List.Forall (fun x => f x = false) l -> List.filter f l = [].
Proof.
  induction 1 as [|x l Hx _ IH]; simpl; [reflexivity|]. now rewrite Hx.
Qed.

Lemma writeMeta_events r :
  List.Forall (fun ev => isHeaderAssign ev = true) (writeMeta C r).
Proof.
  apply List.Forall_forall. intros ev H. apply In_writeMeta in H.
  destruct H as (? & ? & ? & _ & _ & ->). reflexivity.
Qed.

Lemma writeCookies_events r :
  List.Forall (fun ev => exists c, ev = SetCookie c) (writeCookies r).
Proof. apply List.Forall_forall. intros ev H. apply In_writeCookies in H. exact H. Qed.

Lemma headers_send_no_status r :
  List.Forall (fun ev => sendsStatus ev = false)
              (writeMeta C r ++ writeCookies r ++ writeContentType r).
Proof.
  apply List.Forall_forall. intros ev H. rewrite !in_app_iff in H.
  destruct H as [H|[H|H]].
  - apply In_writeMeta in H. destruct H as (? & ? & ? & _ & _ & ->). reflexivity.
  - apply In_writeCookies in H. destruct H as (? & ->). reflexivity.
  - apply In_writeContentType in H. destruct H as (-> & _). reflexivity.
Qed.

(** The whole dispatch of a value that does not write its own response,
    as one equation. *)
Lemma writeResponse_equation r req :
  asResponseWriter (v r) = None ->
  let r' := resolved C r req in
  WriteResponse C r req
  = match location r' with
    | Some url =>
        mkDispatched (set_v None r')
          (writeMeta C r ++ writeCookies r ++ [HttpRedirect url (statusCode r')]) None
    | None =>
        if statusCode r' =? StatusNoContent
        then mkDispatched (set_v None r')
               (writeMeta C r ++ writeCookies r ++ [WriteHeader (statusCode r')]) None
        else mkDispatched (set_v None r')
               (writeMeta C r ++ writeCookies r ++ writeContentType r
                  ++ fst (writeBody C (convert C (v r)) r'))
               (snd (writeBody C (convert C (v r)) r'))
    end.
Proof.
  intros H r'.
  destruct (writeResponse_not_delegated C r req H) as (He & rest & Ht & Hrest).
  fold r' in He, Hrest.
  unfold WriteResponse. rewrite He, Ht.
  destruct (location r') as [url|].
  - destruct Hrest as (-> & ->). reflexivity.
  - destruct (statusCode r' =? StatusNoContent).
    + destruct Hrest as (-> & ->). reflexivity.
    + destruct Hrest as (-> & ->). reflexivity.
Qed.

(** X1. The complete table of the resolved status and location when the
    value does not write its own response. The status of a redirect
    capability wins when no location was set; otherwise the status of the
    [StatusCode] method, or else the one set on the envelope, is used
    unless it is 0, in which case the default of the method applies. A
    location set on the envelope wins over the one of the value. *)
Theorem X1_resolution_table r req :
  asResponseWriter (v r) = None ->
  let d := WriteResponse C r req in
  let resp := convert C (v r) in
  statusCode (envelope d)
  = match location r, asRedirectDescriber resp with
    | None, Some (code, _) => code
    | _, _ =>
        let code := match asStatusCodeDescriber resp with
                    | Some code => code
                    | None => statusCode r
                    end in
        if code =? 0 then defaultCode resp req else code
    end
  /\ location (envelope d)
     = match location r, asRedirectDescriber resp with
       | None, Some (_, loc) => loc
       | explicit, _ => explicit
       end.
Proof.
  intros H d resp. unfold d. rewrite (envelope_not_delegated C r req H).
  split.
  - change (statusCode (set_v None (resolved C r req))) with (statusCode (resolved C r req)).
    apply resolved_statusCode.
  - change (location (set_v None (resolved C r req))) with (location (resolved C r req)).
    apply resolved_location.
Qed.

(** X2. A location set on the envelope ends the dispatch with a call of
    [http.Redirect] to it, after the metadata headers and the cookies and
    with the resolved status, whatever the value is (nil, an error, a
    value with its own [Location]), unless the value writes its own
    response: then the location is ignored and only the [WriteResponse]
    of the value is called. With the redirect nil is returned and the
    dispatcher runs none of its own steps for content type, status line
    and body; what is sent is what [http.Redirect] writes. *)
Theorem X2_explicit_location_redirects r req url :
  location r = Some url ->
  let d := WriteResponse C r req in
  match asResponseWriter (v r) with
  | Some respWriter => trace d = [Delegated] /\ returned d = respWriter req
  | None =>
      location (envelope d) = Some url
      /\ trace d
         = writeMeta C r ++ writeCookies r ++ [HttpRedirect url (statusCode (envelope d))]
      /\ returned d = None
      /\ forall ev, In ev (trace d) -> isBodyStep ev = false
  end.
Proof.
  intros Hl d.
  destruct (asResponseWriter (v r)) as [respWriter|] eqn:H.
  { unfold d, WriteResponse, writeResponse. rewrite H. split; reflexivity. }
  assert (Hloc : location (resolved C r req) = Some url).
  { rewrite resolved_location, Hl. reflexivity. }
  unfold d. rewrite (writeResponse_equation r req H). cbv zeta. rewrite Hloc. simpl.
  repeat split; try assumption.
  intros ev Hin. rewrite !in_app_iff in Hin. destruct Hin as [Hin|[Hin|Hin]].
  - apply In_writeMeta in Hin. destruct Hin as (? & ? & ? & _ & _ & ->). reflexivity.
  - apply In_writeCookies in Hin. destruct Hin as (? & ->). reflexivity.
  - destruct Hin as [<-|[]]. reflexivity.
Qed.

(** X3. When the resolved status is 204 and there is no location, the
    dispatcher writes the metadata headers, the cookies and the status
    line and stops: no content type, even if one was set, no body, even
    if the value is not nil, no codec, no error. *)
Theorem X3_no_content r req :
  asResponseWriter (v r) = None ->
  let d := WriteResponse C r req in
  location (envelope d) = None ->
  statusCode (envelope d) = StatusNoContent ->
  trace d = writeMeta C r ++ writeCookies r ++ [WriteHeader StatusNoContent]
  /\ returned d = None
  /\ forall ev, In ev (trace d) ->
                headerOf ev <> Some "Content-Type" \/ isHeaderAssign ev = true.
Proof.
  intros H d. unfold d. rewrite (writeResponse_equation r req H). cbv zeta.
  destruct (location (resolved C r req)) as [url|] eqn:Hl;
    [intros E; simpl in E; congruence|].
  destruct (Z.eqb_spec (statusCode (resolved C r req)) StatusNoContent) as [E|E].
  - intros _ _. simpl. rewrite E. repeat split.
    intros ev Hin. rewrite !in_app_iff in Hin. destruct Hin as [Hin|[Hin|Hin]].
    + right. apply In_writeMeta in Hin. destruct Hin as (? & ? & ? & _ & _ & ->). reflexivity.
    + left. apply In_writeCookies in Hin. destruct Hin as (? & ->). discriminate.
    + left. destruct Hin as [<-|[]]. discriminate.
  - intros _ E'. simpl in E'. contradiction.
Qed.

(** X4. When the body step is reached and the (error-converted) value is
    a [courier.Result], the status line is written and the value writes
    itself with [Into]; the error of [Into] is returned. This holds also
    for a value that is an [io.Reader] as well: it is neither copied nor
    closed, and no codec is asked for. *)
Theorem X4_result_writes_itself r req y err :
  asResponseWriter (v r) = None ->
  convert C (v r) = Some y ->
  val_Into y = Some err ->
  let d := WriteResponse C r req in
  location (envelope d) = None ->
  statusCode (envelope d) <> StatusNoContent ->
  trace d = writeMeta C r ++ writeCookies r ++ writeContentType r
              ++ [WriteHeader (statusCode (envelope d)); Into]
  /\ returned d = err.
Proof.
  intros H Hy Hi d. unfold d. rewrite (writeResponse_equation r req H). cbv zeta.
  destruct (location (resolved C r req)) as [url|] eqn:Hl;
    [intros E; simpl in E; congruence|].
  destruct (Z.eqb_spec (statusCode (resolved C r req)) StatusNoContent) as [E|E].
  - intros _ E'. simpl in E'. contradiction.
  - intros _ _. rewrite Hy. unfold writeBody. rewrite Hi. split; reflexivity.
Qed.

(** X5. When the body step is reached and the (error-converted) value is
    an [io.Reader] and not a [courier.Result], the status line is written
    and the value is copied; a value that is an [io.Closer] is closed
    after the copy whether the copy fails or not, and the error of the
    copy is returned. *)
Theorem X5_reader_copied_then_closed r req y err :
  asResponseWriter (v r) = None ->
  convert C (v r) = Some y ->
  val_Into y = None ->
  val_Read y = Some err ->
  let d := WriteResponse C r req in
  location (envelope d) = None ->
  statusCode (envelope d) <> StatusNoContent ->
  trace d = writeMeta C r ++ writeCookies r ++ writeContentType r
              ++ [WriteHeader (statusCode (envelope d)); Copy]
              ++ (if val_isCloser y then [Close] else [])
  /\ returned d = err.
Proof.
  intros H Hy Hi Hr d. unfold d. rewrite (writeResponse_equation r req H). cbv zeta.
  destruct (location (resolved C r req)) as [url|] eqn:Hl;
    [intros E; simpl in E; congruence|].
  destruct (Z.eqb_spec (statusCode (resolved C r req)) StatusNoContent) as [E|E].
  - intros _ E'. simpl in E'. contradiction.
  - intros _ _. rewrite Hy. unfold writeBody. rewrite Hi, Hr. split; reflexivity.
Qed.

(** X6. When the body step is reached and the (error-converted) value is
    neither a [courier.Result] nor an [io.Reader] (nil included), a codec
    is resolved from the type of the value and the content type set on
    the envelope. If that fails, the error is returned and no status line
    is sent at all; otherwise the codec encodes with the resolved status
    and its error is returned. *)
Theorem X6_codec_body r req :
  asResponseWriter (v r) = None ->
  (forall y, convert C (v r) = Some y -> val_Into y = None /\ val_Read y = None) ->
  let d := WriteResponse C r req in
  let t := option_map val_type (convert C (v r)) in
  location (envelope d) = None ->
  statusCode (envelope d) <> StatusNoContent ->
  match NewTransformer C t (contentType r) with
  | inl err =>
      returned d = Some err
      /\ trace d = writeMeta C r ++ writeCookies r ++ writeContentType r
      /\ forall ev, In ev (trace d) -> sendsStatus ev = false
  | inr tf =>
      returned d = EncodeTo tf (statusCode (envelope d))
      /\ trace d = writeMeta C r ++ writeCookies r ++ writeContentType r
                     ++ [Encode t (contentType r) (statusCode (envelope d))]
  end.
Proof.
  intros H Hy d t. unfold d. rewrite (writeResponse_equation r req H). cbv zeta.
  destruct (location (resolved C r req)) as [url|] eqn:Hl;
    [intros E; simpl in E; congruence|].
  destruct (Z.eqb_spec (statusCode (resolved C r req)) StatusNoContent) as [E|E].
  - intros _ E'. simpl in E'. contradiction.
  - intros _ _.
    assert (Hct : contentType (resolved C r req) = contentType r)
      by apply (resolved_fields C r req).
    assert (Hb : writeBody C (convert C (v r)) (resolved C r req)
                 = match NewTransformer C t (contentType r) with
                   | inl err => ([], Some err)
                   | inr tf => ([Encode t (contentType r) (statusCode (resolved C r req))],
                                EncodeTo tf (statusCode (resolved C r req)))
                   end).
    { unfold writeBody, t. rewrite Hct.
      destruct (convert C (v r)) as [y|]; [|reflexivity].
      destruct (Hy y eq_refl) as (-> & ->). reflexivity. }
    rewrite Hb. destruct (NewTransformer C t (contentType r)) as [err|tf]; simpl.
    + split; [reflexivity|]. split; [now rewrite app_nil_r|].
      rewrite app_nil_r.
      apply List.Forall_forall. apply headers_send_no_status.
    + split; reflexivity.
Qed.

(** X7. In a dispatch that is not delegated at most one event sends the
    status line, and every header and cookie is written before it:
    nothing is added to the header once the status is out. *)
Theorem X7_headers_before_status r req :
  asResponseWriter (v r) = None ->
  let d := WriteResponse C r req in
  (length (List.filter sendsStatus (trace d)) <= 1)%nat
  /\ exists before after,
      trace d = before ++ after
      /\ List.Forall (fun ev => sendsStatus ev = false) before
      /\ List.Forall (fun ev => isHeaderWrite ev = false) after.
Proof.
  intros H d. unfold d. rewrite (writeResponse_equation r req H). cbv zeta.
  pose proof (headers_send_no_status r) as Hh.
  assert (Hh' : List.Forall (fun ev => sendsStatus ev = false)
                            (writeMeta C r ++ writeCookies r)).
  { rewrite app_assoc in Hh. apply List.Forall_app in Hh. tauto. }
  assert (Hone : forall hs rest,
             List.Forall (fun ev => sendsStatus ev = false) hs ->
             (length (List.filter sendsStatus rest) <= 1)%nat ->
             List.Forall (fun ev => isHeaderWrite ev = false) rest ->
             (length (List.filter sendsStatus (hs ++ rest)) <= 1)%nat
             /\ exists before after,
                 hs ++ rest = before ++ after
                 /\ List.Forall (fun ev => sendsStatus ev = false) before
                 /\ List.Forall (fun ev => isHeaderWrite ev = false) after).
  { intros hs rest H1 H2 H3. split.
    - rewrite List.filter_app, (filter_none _ _ H1). exact H2.
    - exists hs, rest. auto. }
  destruct (location (resolved C r req)) as [url|].
  - simpl trace. rewrite app_assoc. apply Hone; auto; repeat constructor.
  - destruct (statusCode (resolved C r req) =? StatusNoContent).
    + simpl trace. rewrite app_assoc. apply Hone; auto; repeat constructor.
    + simpl trace.
      replace (writeMeta C r ++ writeCookies r ++ writeContentType r
                 ++ fst (writeBody C (convert C (v r)) (resolved C r req)))
        with ((writeMeta C r ++ writeCookies r ++ writeContentType r)
                ++ fst (writeBody C (convert C (v r)) (resolved C r req)))
        by (now rewrite <- !app_assoc).
      apply Hone; auto.
      * unfold writeBody.
        destruct (convert C (v r)) as [y|]; simpl.
        -- destruct (val_Into y); simpl; [lia|].
           destruct (val_Read y); simpl.
           ++ destruct (val_isCloser y); simpl; lia.
           ++ destruct (NewTransformer C _ _); simpl; lia.
        -- destruct (NewTransformer C _ _); simpl; lia.
      * unfold writeBody.
        destruct (convert C (v r)) as [y|]; simpl.
        -- destruct (val_Into y); simpl; [repeat constructor|].
           destruct (val_Read y); simpl.
           ++ destruct (val_isCloser y); simpl; repeat constructor.
           ++ destruct (NewTransformer C _ _); simpl; repeat constructor.
        -- destruct (NewTransformer C _ _); simpl; repeat constructor.
Qed.

Lemma filter_all {A} (f : A -> bool) (l : list A) :
  List.Forall (fun x => f x = true) l -> List.filter f l = l.
Proof.
  induction 1 as [|x l Hx _ IH]; simpl; [reflexivity|]. now rewrite Hx, IH.
Qed.

(** X8. In a dispatch that is not delegated the headers assigned from the
    metadata are, in some order, exactly one per entry of the metadata
    map, each under the canonical form of its key and with the values of
    the entry; nothing else is assigned to the header map. *)
Theorem X8_metadata_headers r req :
  asResponseWriter (v r) = None ->
  List.filter isHeaderAssign (trace (WriteResponse C r req))
  ≡ₚ match meta r with
     | Some mt =>
         map (fun kv => HeaderAssign (textproto.CanonicalMIMEHeaderKey (fst kv)) (snd kv))
             (map_to_list mt)
     | None => []
     end.
Proof.
  intros H.
  assert (Hrest : exists rest,
             trace (WriteResponse C r req) = writeMeta C r ++ rest
             /\ List.Forall (fun ev => isHeaderAssign ev = false) rest).
  { rewrite (writeResponse_equation r req H). cbv zeta.
    assert (Hc : List.Forall (fun ev => isHeaderAssign ev = false) (writeCookies r)).
    { apply List.Forall_forall. intros ev Hin. apply In_writeCookies in Hin.
      destruct Hin as (? & ->). reflexivity. }
    assert (Ht : List.Forall (fun ev => isHeaderAssign ev = false) (writeContentType r)).
    { apply List.Forall_forall. intros ev Hin. apply In_writeContentType in Hin.
      destruct Hin as (-> & _). reflexivity. }
    assert (Hb : forall resp r', List.Forall (fun ev => isHeaderAssign ev = false)
                                             (fst (writeBody C resp r'))).
    { intros resp r'. apply List.Forall_forall. intros ev Hin. apply In_writeBody in Hin.
      destruct Hin as [->|[->|[->|[->| ->]]]]; reflexivity. }
    destruct (location (resolved C r req)) as [url|].
    - eexists. split; [reflexivity|]. apply List.Forall_app. split; [exact Hc|].
      repeat constructor.
    - destruct (statusCode (resolved C r req) =? StatusNoContent).
      + eexists. split; [reflexivity|]. apply List.Forall_app. split; [exact Hc|].
        repeat constructor.
      + eexists. split; [reflexivity|].
        apply List.Forall_app. split; [exact Hc|].
        apply List.Forall_app. split; [exact Ht|apply Hb]. }
  destruct Hrest as (rest & -> & Hrest).
  rewrite List.filter_app, (filter_none _ _ Hrest), app_nil_r.
  rewrite (filter_all _ _ (writeMeta_events r)).
  unfold writeMeta. destruct (meta r) as [mt|]; [|reflexivity].
  apply Permutation_map, (rangeMeta_perm C).
Qed.

(** *** The setters *)

Lemma fields_call c r :
  v (call c r) = v r
  /\ location (call c r) = lastLocation (location r) [c]
  /\ cookies (call c r) = lastCookies (cookies r) [c]
  /\ forall key, metadataAt (call c r) key = lastMetadata key (metadataAt r key) [c].
Proof.
  destruct c; simpl; repeat split; try reflexivity; intros key0.
  unfold metadataAt, SetMetadata. simpl.
  destruct (String.eqb_spec key key0) as [->|Hne].
  - now rewrite lookup_insert_eq.
  - rewrite lookup_insert_ne by exact Hne.
    destruct (meta r); [reflexivity|apply lookup_empty].
Qed.

Lemma fields_apply calls :
  forall r,
    location (apply calls r) = lastLocation (location r) calls
    /\ cookies (apply calls r) = lastCookies (cookies r) calls
    /\ forall key, metadataAt (apply calls r) key = lastMetadata key (metadataAt r key) calls.
Proof.
  induction calls as [|c calls IH]; intros r.
  - repeat split.
  - change (apply (c :: calls) r) with (apply calls (call c r)).
    destruct (IH (call c r)) as (Hl & Hc & Hm).
    destruct (fields_call c r) as (_ & Hl1 & Hc1 & Hm1).
    split; [|split].
    + rewrite Hl, Hl1. destruct c; reflexivity.
    + rewrite Hc, Hc1. destruct c; reflexivity.
    + intros key0. rewrite Hm, Hm1. destruct c; try reflexivity.
      simpl. destruct (String.eqb key key0); reflexivity.
Qed.

(** X9. An envelope built by [Wrap] holds the wrapped value and, for each
    setting, what the last call that wrote it gave: the last status code,
    content type and location, the cookie list of the last [SetCookies]
    (lists are replaced, not merged), and under each metadata key the
    values of the last [SetMetadata] for that key (other keys are kept).
    What was never set is 0, empty or nil. *)
Theorem X9_Wrap_last_write_wins x opts :
  let r := Wrap x opts in
  let calls := concat opts in
  v r = x
  /\ statusCode r = lastStatusCode 0 calls
  /\ contentType r = lastContentType EmptyString calls
  /\ location r = lastLocation None calls
  /\ cookies r = lastCookies [] calls
  /\ forall key, metadataAt r key = lastMetadata key None calls.
Proof.
  cbv zeta.
  split; [apply v_Wrap|]. split; [apply statusCode_Wrap|].
  split; [apply contentType_Wrap|].
  rewrite Wrap_concat.
  destruct (fields_apply (concat opts) (mkResponse x None [] None EmptyString 0))
    as (Hl & Hc & Hm).
  split; [exact Hl|]. split; [exact Hc|exact Hm].
Qed.

(** X10. Two setter calls that write different fields, or metadata under
    different keys, commute; so an envelope does not depend on the order
    in which two such options are given to [Wrap]. *)
Theorem X10_setters_commute c1 c2 :
  sameTarget c1 c2 = false ->
  (forall r, call c1 (call c2 r) = call c2 (call c1 r))
  /\ forall x before after,
       Wrap x (before ++ [c1] :: [c2] :: after) = Wrap x (before ++ [c2] :: [c1] :: after).
Proof.
  intros Hs.
  assert (Hcall : forall r, call c1 (call c2 r) = call c2 (call c1 r)).
  { intros r. destruct c1, c2; simpl in Hs; try discriminate Hs; try reflexivity.
    apply String.eqb_neq in Hs.
    unfold call, SetMetadata. simpl. f_equal. f_equal.
    apply insert_insert_ne. congruence. }
  split; [exact Hcall|].
  intros x before after. unfold Wrap.
  rewrite !fold_left_app. cbn [fold_left apply]. now rewrite Hcall.
Qed.

End DispatchFurther.


(** * Further properties of the scanner *)

Section StringsFurther.
Import regexp openapi.

Lemma Split1_nonempty s sep : gostrings.Split1 s sep <> [].
Proof.
  destruct s as [|c rest]; simpl; [discriminate|].
  destruct (Ascii.eqb c sep); [discriminate|].
  destruct (gostrings.Split1 rest sep); discriminate.
Qed.

Lemma Split1_lacks s sep : gostrings.lacks sep s = true -> gostrings.Split1 s sep = [s].
Proof.
  induction s as [|c rest IH]; simpl; [reflexivity|].
  intros H. apply andb_prop in H. destruct H as (Hc & Hr).
  apply negb_true_iff in Hc. rewrite Hc, (IH Hr). reflexivity.
Qed.

Lemma Split1_first_piece piece sep rest :
  gostrings.lacks sep piece = true ->
  gostrings.Split1 (piece +:+ String sep rest) sep = piece :: gostrings.Split1 rest sep.
Proof.
  induction piece as [|c piece IH]; intros H.
  - simpl. now rewrite Ascii.eqb_refl.
  - simpl in H. apply andb_prop in H. destruct H as (Hc & Hr).
    apply negb_true_iff in Hc.
    rewrite append_cons. cbn [gostrings.Split1]. rewrite Hc, (IH Hr). reflexivity.
Qed.

Lemma Split1_two_pieces p sep q :
  exists piece pieces more,
    gostrings.Split1 (p +:+ String sep q) sep = piece :: pieces :: more.
Proof.
  induction p as [|c p IH].
  - simpl. rewrite Ascii.eqb_refl.
    destruct (gostrings.Split1 q sep) as [|x l] eqn:E; [now apply Split1_nonempty in E|].
    now exists EmptyString, x, l.
  - rewrite append_cons. cbn [gostrings.Split1].
    destruct IH as (piece & pieces & more & ->).
    destruct (Ascii.eqb c sep); eauto.
Qed.

Lemma final_Split1_after p sep q :
  gostrings.final (gostrings.Split1 (p +:+ String sep q) sep)
  = gostrings.final (gostrings.Split1 q sep).
Proof.
  unfold gostrings.final. induction p as [|c p IH].
  - simpl. rewrite Ascii.eqb_refl.
    destruct (gostrings.Split1 q sep) as [|x l] eqn:E; [now apply Split1_nonempty in E|].
    reflexivity.
  - rewrite append_cons. cbn [gostrings.Split1].
    destruct (Split1_two_pieces p sep q) as (piece & pieces & more & E).
    rewrite E in IH |- *. destruct (Ascii.eqb c sep); exact IH.
Qed.

Lemma noSlash_lacks s : noSlash s = true -> gostrings.lacks "/" s = true.
Proof.
  induction s as [|c s IH]; simpl; [reflexivity|].
  intros H. apply andb_prop in H. destruct H as (Hc & Hs).
  unfold slash in Hc. rewrite Hc. now apply IH.
Qed.

(** X13. The tag of a package path is what follows its last slash, and
    the whole path when it has no slash. *)
Theorem X13_tag_last_segment s :
  noSlash s = true ->
  tag s = s /\ forall p, tag (p +:+ "/" +:+ s) = s.
Proof.
  intros H. apply noSlash_lacks in H. unfold tag. split.
  - now rewrite (Split1_lacks s "/" H).
  - intros p. change ("/" +:+ s) with (String "/" s).
    rewrite final_Split1_after. now rewrite (Split1_lacks s "/" H).
Qed.

Lemma fold_flags pieces :
  forall (flags : gmap string bool) flag,
    fold_left (fun flags flag => <[flag := true]> flags) pieces flags !! flag
    = if bool_decide (flag ∈ pieces) then Some true else flags !! flag.
Proof.
  induction pieces as [|x pieces IH]; intros flags flag; cbn [fold_left].
  - rewrite bool_decide_eq_false_2 by apply not_elem_of_nil. reflexivity.
  - rewrite IH. destruct (decide (flag ∈ pieces)) as [Hin|Hin].
    + rewrite !bool_decide_eq_true_2; [reflexivity|now apply list_elem_of_further|exact Hin].
    + rewrite (bool_decide_eq_false_2 _ Hin).
      destruct (decide (x = flag)) as [->|Hne].
      * rewrite bool_decide_eq_true_2 by apply list_elem_of_here. apply lookup_insert_eq.
      * rewrite bool_decide_eq_false_2; [now apply lookup_insert_ne|].
        intros H. apply elem_of_cons in H. destruct H as [->|H]; contradiction.
Qed.

(** X14. The value of a tag string is what stands before its first
    comma, and the flags are the comma-separated pieces after it, each
    mapped to true; a tag string without a comma is its own value and has
    no flag. *)
Theorem X14_tag_value_and_flags value :
  gostrings.lacks "," value = true ->
  tagValueAndFlagsByTagString value = (value, ∅)
  /\ forall rest,
       fst (tagValueAndFlagsByTagString (value +:+ "," +:+ rest)) = value
       /\ forall flag,
            snd (tagValueAndFlagsByTagString (value +:+ "," +:+ rest)) !! flag
            = if bool_decide (flag ∈ gostrings.Split1 rest ",") then Some true else None.
Proof.
  intros H. unfold tagValueAndFlagsByTagString. split.
  - now rewrite (Split1_lacks value "," H).
  - intros rest. change ("," +:+ rest) with (String "," rest).
    rewrite (Split1_first_piece value "," rest H). cbn [gostrings.first hd tl fst snd].
    split; [reflexivity|]. intros flag. rewrite fold_flags, lookup_empty. reflexivity.
Qed.

Lemma replaceFrom_noMarker repl s :
  noMarker s = true -> replaceFrom repl O s = s.
Proof.
  induction s as [|c s IH]; [reflexivity|].
  intros H. cbn [noMarker] in H. apply andb_prop in H. destruct H as (_ & Hs).
  cbn [replaceFrom].
  assert (Hm : matchHere (String c s) = None).
  { destruct s as [|mark q]; [reflexivity|].
    cbn [noMarker] in Hs. apply andb_prop in Hs. destruct Hs as (Hmark & _).
    apply negb_true_iff in Hmark. simpl. rewrite Hmark, andb_false_r. reflexivity. }
  rewrite Hm, (IH Hs). reflexivity.
Qed.

(** X21. A route path with no [:] and no [*] is published as it is,
    whatever the operation declares. *)
Theorem X21_patchPath_plain_path path op :
  noMarker path = true -> patchPath path op = path.
Proof. intros H. unfold patchPath, ReplaceAllStringFunc. now apply replaceFrom_noMarker. Qed.

End StringsFurther.

Section ScannerFurther.
Import openapi.
Variable C : Collaborators.

(** *** The registry and the recorded references *)

Lemma upper_is_safe c rest : textproto.isUpper c = true -> safeName (String c rest) = true.
Proof.
  destruct c as [[] [] [] [] [] [] [] []]; intros H; try discriminate H; reflexivity.
Qed.

Lemma TrimLeft_RefString b typeRef :
  safeName (opt_naming b typeRef) = true ->
  gostrings.TrimLeft (RefString b typeRef) schemasPrefix = opt_naming b typeRef.
Proof.
  intros H. unfold RefString. apply TrimLeft_keeps_name.
  unfold safeName in H. destruct (opt_naming b typeRef); [exact I|].
  now apply negb_true_iff in H.
Qed.

(** X11. When the names the naming gives do not start with a byte of
    [#/components/schemas/] (a name that starts with an upper-case letter
    never does), registering schemas under their references keeps, under
    each name, the schema that was there or else the first one registered
    with that name; later registrations with the same name change
    nothing. *)
Theorem X11_registry_first_wins regs :
  forall b n,
    (forall reg, In reg regs -> safeName (opt_naming b (fst reg)) = true) ->
    schemasOf (fold_left (fun b reg => RegisterSchema (RefString b (fst reg)) (snd reg) b)
                         regs b) !! n
    = match schemasOf b !! n with
      | Some s => Some s
      | None => firstNamed (opt_naming b) n regs
      end.
Proof.
  induction regs as [|[typeRef s] regs IH]; intros b n Hsafe; cbn [fold_left firstNamed].
  - destruct (schemasOf b !! n); reflexivity.
  - cbn [fst snd].
    assert (Hn : opt_naming (RegisterSchema (RefString b typeRef) s b) = opt_naming b)
      by apply opt_naming_RegisterSchema.
    rewrite IH by (intros reg Hin; rewrite Hn; apply Hsafe; now right).
    rewrite Hn, schemasOf_RegisterSchema.
    rewrite (TrimLeft_RefString b typeRef (Hsafe (typeRef, s) (or_introl eq_refl))).
    destruct (String.eqb_spec (opt_naming b typeRef) n) as [->|Hne].
    + destruct (schemasOf b !! n) eqn:E; [now rewrite E|].
      now rewrite lookup_insert_eq.
    + destruct (schemasOf b !! opt_naming b typeRef); [reflexivity|].
      now rewrite lookup_insert_ne by exact Hne.
Qed.

(** X12. [Record] reports whether the reference was recorded before and
    records it: after any sequence of calls it answers true exactly for
    the references of the sequence and those recorded earlier, and it
    never touches the document. *)
Theorem X12_Record_load_or_store refs b typeRef :
  let b' := fold_left (fun b ref => fst (Record_ ref b)) refs b in
  (snd (Record_ typeRef b') = true <-> typeRef ∈ m b \/ In typeRef refs)
  /\ snd (Record_ typeRef (fst (Record_ typeRef b'))) = true
  /\ o b' = o b.
Proof.
  cbv zeta.
  assert (H : forall b0,
             m (fold_left (fun b ref => fst (Record_ ref b)) refs b0)
             = m b0 ∪ list_to_set refs
             /\ o (fold_left (fun b ref => fst (Record_ ref b)) refs b0) = o b0).
  { induction refs as [|ref refs IH]; intros b0; cbn [fold_left].
    - split; [|reflexivity]. simpl. now rewrite union_empty_r_L.
    - destruct (IH (fst (Record_ ref b0))) as (-> & ->). simpl. split; [|reflexivity].
      now rewrite (union_comm_L {[ref]} (m b0)), <- union_assoc_L. }
  destruct (H b) as (Hm & Ho). split; [|split].
  - unfold Record_ at 1. cbn [snd]. rewrite bool_decide_eq_true, Hm.
    rewrite elem_of_union, elem_of_list_to_set, list_elem_of_In. reflexivity.
  - unfold Record_. cbn [fst snd m]. apply bool_decide_eq_true.
    apply elem_of_union_l. now apply elem_of_singleton.
  - exact Ho.
Qed.

(** *** What one field does to the operation *)

Lemma Paths_RegisterSchema ref s b : Paths (o (RegisterSchema ref s b)) = Paths (o b).
Proof. unfold RegisterSchema. destruct (_ !! _); reflexivity. Qed.

Lemma Paths_SchemaFromType t def b :
  Paths (o (fst (SchemaFromType C t def b))) = Paths (o b).
Proof.
  unfold SchemaFromType. simpl.
  generalize (ex_registered (SchemaFrom C (RefString b) (m b) t def)).
  generalize (ex_recorded (SchemaFrom C (RefString b) (m b) t def)).
  intros recs regs.
  assert (H1 : forall b0, Paths (o (fold_left (fun b typeRef => fst (Record_ typeRef b)) recs b0))
                          = Paths (o b0)).
  { induction recs as [|x recs IH]; intros b0; simpl; [reflexivity|]. now rewrite IH. }
  assert (H2 : forall b0,
             Paths (o (fold_left (fun b reg => RegisterSchema (fst reg) (snd reg) b) regs b0))
             = Paths (o b0)).
  { induction regs as [|x regs IH]; intros b0; simpl; [reflexivity|].
    rewrite IH. apply Paths_RegisterSchema. }
  now rewrite H2, H1.
Qed.

(** Everything one field leaves as it was, and the parameter it adds. *)
Lemma scanField_effect docer b op vf b' op' :
  scanField C docer (b, op) vf = Returned (b', op') ->
  b' = fst (SchemaFromType C (field_Type (field vf)) false b)
  /\ OperationId op' = OperationId op /\ op_Summary op' = op_Summary op
  /\ op_Description op' = op_Description op /\ op_Deprecated op' = op_Deprecated op
  /\ op_Tags op' = op_Tags op /\ op_Responses op' = op_Responses op
  /\ map parameterShape (op_Parameters op')
     = map parameterShape (op_Parameters op) ++ expectedShapes vf
  /\ (locationOf vf <> "body" -> op_RequestBody op' = op_RequestBody op).
Proof.
  unfold scanField, expectedShapes, locationOf.
  generalize (fst (tagValueAndFlagsByTagString (TagGet (field vf) "in"))). intros loc.
  destruct (String.eqb_spec loc EmptyString) as [|Hne]; [discriminate|].
  destruct (NewTransformer C _ _) as [err|tf]; [discriminate|].
  destruct (SchemaFromType C (field_Type (field vf)) false b) as [b1 schema]. cbn [fst].
  destruct (String.eqb_spec loc "body") as [->|Hb].
  - destruct (op_RequestBody op); destruct (courierhttp.Names tf); try discriminate;
      intros E; injection E as <- <-; simpl; rewrite app_nil_r;
      repeat split; try reflexivity; intros H; now destruct H.
  - destruct (String.eqb_spec loc "query") as [->|Hq];
      [intros E; injection E as <- <-; simpl; rewrite map_app; repeat split; reflexivity|].
    destruct (String.eqb_spec loc "cookie") as [->|Hc];
      [intros E; injection E as <- <-; simpl; rewrite map_app; repeat split; reflexivity|].
    destruct (String.eqb_spec loc "header") as [->|Hh];
      [intros E; injection E as <- <-; simpl; rewrite map_app; repeat split; reflexivity|].
    destruct (String.eqb_spec loc "path") as [->|Hp];
      [intros E; injection E as <- <-; simpl; rewrite map_app; repeat split; reflexivity|].
    intros E; injection E as <- <-; simpl; rewrite app_nil_r; repeat split; reflexivity.
Qed.

(** X16. A field whose location is none of body, query, cookie, header
    and path (and not empty) is passed over without an error: its codec
    is resolved and its schema extracted, but the operation stays as it
    was. *)
Theorem X16_unknown_location_ignored docer b op vf tf :
  locationOf vf <> EmptyString ->
  knownLocation (locationOf vf) = false ->
  NewTransformer C (field_Type (field vf))
                 (gostrings.first (gostrings.Split1 (TagGet (field vf) "mime") ","))
  = inr tf ->
  scanField C docer (b, op) vf
  = Returned (fst (SchemaFromType C (field_Type (field vf)) false b), op).
Proof.
  unfold scanField, knownLocation, locationOf.
  generalize (fst (tagValueAndFlagsByTagString (TagGet (field vf) "in"))). intros loc.
  intros Hne Hk Htf. rewrite Htf.
  destruct (String.eqb_spec loc EmptyString) as [|_]; [contradiction|].
  destruct (SchemaFromType C (field_Type (field vf)) false b) as [b1 schema]. cbn [fst].
  destruct (String.eqb loc "body"); [discriminate Hk|].
  destruct (String.eqb loc "query"); [discriminate Hk|].
  destruct (String.eqb loc "cookie"); [discriminate Hk|].
  destruct (String.eqb loc "header"); [discriminate Hk|].
  destruct (String.eqb loc "path"); [discriminate Hk|]. reflexivity.
Qed.

(** X19. A body field puts its schema into the request body of the
    operation under the first name of its codec, creating a required
    request body when there is none and keeping the entries it already
    has under other names. When the type has a [RuntimeDoc] method that
    gives a text for the field, the schema is the intersection of the
    structural schema and a fragment that holds the text, lines joined by
    a newline; the text never replaces the structural schema. Without
    such a method, or without a text for the field, the schema is the
    structural one. Parameters and responses stay as they were. *)
Theorem X19_body_field docer b op vf tf name names :
  locationOf vf = "body" ->
  NewTransformer C (field_Type (field vf))
                 (gostrings.first (gostrings.Split1 (TagGet (field vf) "mime") ","))
  = inr tf ->
  courierhttp.Names tf = name :: names ->
  let extracted := SchemaFromType C (field_Type (field vf)) false b in
  let text := match docer with
              | Some doc => doc (field_Name (field vf))
              | None => None
              end in
  let documented :=
    match text, snd extracted with
    | Some lines, Some sch => Some (AllOf sch (SchemaDescription (Join lines newline)))
    | Some lines, None => Some (SchemaDescription (Join lines newline))
    | None, schema => schema
    end in
  exists rb,
    scanField C docer (b, op) vf
    = Returned (fst extracted, SetRequestBody rb op)
    /\ rb_Content rb !! name = Some (mkMediaType documented)
    /\ (forall other, other <> name ->
          rb_Content rb !! other
          = match op_RequestBody op with
            | Some old => rb_Content old !! other
            | None => None
            end)
    /\ rb_Required rb = match op_RequestBody op with
                        | Some old => rb_Required old
                        | None => true
                        end
    /\ op_Parameters (SetRequestBody rb op) = op_Parameters op
    /\ op_Responses (SetRequestBody rb op) = op_Responses op.
Proof.
  unfold scanField, locationOf.
  intros Hloc Htf Hnames. cbv zeta. rewrite Hloc, Htf, Hnames.
  destruct (SchemaFromType C (field_Type (field vf)) false b) as [b1 schema].
  cbn [fst snd String.eqb Ascii.eqb Bool.eqb].
  set (text := match docer with
               | Some doc => doc (field_Name (field vf))
               | None => None
               end).
  set (documented := match text, schema with
                     | Some lines, Some sch =>
                         Some (AllOf sch (SchemaDescription (Join lines newline)))
                     | Some lines, None => Some (SchemaDescription (Join lines newline))
                     | None, schema => schema
                     end).
  assert (Hs : match docer with
               | Some doc =>
                   match doc (field_Name (field vf)) with
                   | Some lines =>
                       match schema with
                       | Some sch =>
                           Some (AllOf sch (SchemaDescription (Join lines newline)))
                       | None => Some (SchemaDescription (Join lines newline))
                       end
                   | None => schema
                   end
               | None => schema
               end = documented).
  { unfold documented, text. destruct docer as [doc|]; [|now destruct schema].
    destruct (doc (field_Name (field vf))), schema; reflexivity. }
  destruct (op_RequestBody op) as [old|] eqn:E.
  - exists (rb_AddContent name (mkMediaType documented) old).
    split; [now rewrite Hs|]. split; [apply lookup_insert_eq|].
    split; [intros other Hne; simpl; now apply lookup_insert_ne|].
    repeat split.
  - exists (rb_AddContent name (mkMediaType documented) (NewRequestBody EmptyString true)).
    split; [now rewrite Hs|]. split; [apply lookup_insert_eq|].
    split; [intros other Hne; simpl; rewrite lookup_insert_ne by congruence;
            apply lookup_empty|].
    repeat split.
Qed.

(** *** What the response derivation leaves alone *)

Lemma fold_addErrorResponse_effect first entries :
  forall st,
    let st' := fold_left (addErrorResponse C first) entries st in
    Paths (o (fst st')) = Paths (o (fst st))
    /\ sameButResponses (snd st) (snd st')
    /\ forall code, is_Some (op_Responses (snd st) !! code) ->
                    is_Some (op_Responses (snd st') !! code).
Proof.
  induction entries as [|entry entries IH]; intros st; cbn [fold_left].
  - repeat split; auto.
  - destruct (IH (addErrorResponse C first st entry)) as (Hp & Hs & Hr).
    cbv zeta in Hp, Hs, Hr.
    assert (H1 : Paths (o (fst (addErrorResponse C first st entry))) = Paths (o (fst st))
                 /\ sameButResponses (snd st) (snd (addErrorResponse C first st entry))).
    { unfold addErrorResponse.
      pose proof (Paths_SchemaFromType (courierhttp.val_type first) false (fst st)) as H.
      destruct (SchemaFromType C _ _ _) as [b1 schema]. simpl in *.
      split; [exact H|]. repeat split. }
    destruct H1 as (Hp1 & Hs1).
    split; [congruence|]. split.
    + unfold sameButResponses in *. intuition congruence.
    + intros code Hc. apply Hr.
      rewrite (proj2 (addErrorResponse_spec C first st entry)).
      destruct (decide (fst entry = code)) as [->|Hne].
      * rewrite lookup_insert_eq. eauto.
      * now rewrite lookup_insert_ne.
Qed.

Lemma scanResponseErrors_effect b op handler :
  Paths (o (fst (scanResponseErrors C b op handler))) = Paths (o b)
  /\ sameButResponses op (snd (scanResponseErrors C b op handler))
  /\ forall code, is_Some (op_Responses op !! code) ->
                  is_Some (op_Responses (snd (scanResponseErrors C b op handler)) !! code).
Proof.
  unfold scanResponseErrors.
  destruct (can_ResponseErrors handler) as [[|first rest]|];
    try (split; [reflexivity|split; [repeat split|auto]]).
  apply (fold_addErrorResponse_effect first _ (b, op)).
Qed.

Lemma scanResponse_effect b op fac :
  Paths (o (fst (scanResponse C b op fac))) = Paths (o b)
  /\ sameButResponses op (snd (scanResponse C b op fac)).
Proof.
  unfold scanResponse.
  destruct (String.eqb _ EmptyString); [repeat split|].
  destruct (can_ResponseContent (of_Operator fac)) as [[rt|]|].
  - pose proof (Paths_SchemaFromType rt false b) as H.
    destruct (SchemaFromType C rt false b) as [b1 schema]. simpl in H.
    match goal with
    | |- context [scanResponseErrors C ?b0 ?op0 ?h] =>
        destruct (scanResponseErrors_effect b0 op0 h) as (Hp & Hs & _)
    end.
    split; [congruence|]. unfold sameButResponses in *. simpl in Hs. exact Hs.
  - match goal with
    | |- context [scanResponseErrors C ?b0 ?op0 ?h] =>
        destruct (scanResponseErrors_effect b0 op0 h) as (Hp & Hs & _)
    end.
    split; [congruence|]. unfold sameButResponses in *. simpl in Hs. exact Hs.
  - match goal with
    | |- context [scanResponseErrors C ?b0 ?op0 ?h] =>
        destruct (scanResponseErrors_effect b0 op0 h) as (Hp & Hs & _)
    end.
    split; [congruence|]. unfold sameButResponses in *. simpl in Hs. exact Hs.
Qed.

(** *** What the loops of [scan] do *)

Lemma each_scanField_effect docer fields :
  forall b op b' op',
    each (scanField C docer) fields (b, op) = Returned (b', op') ->
    Paths (o b') = Paths (o b)
    /\ OperationId op' = OperationId op /\ op_Summary op' = op_Summary op
    /\ op_Description op' = op_Description op /\ op_Deprecated op' = op_Deprecated op
    /\ map parameterShape (op_Parameters op')
       = map parameterShape (op_Parameters op) ++ flat_map expectedShapes fields.
Proof.
  induction fields as [|vf fields IH]; intros b op b' op'; cbn [each flat_map].
  - intros E. injection E as <- <-. rewrite app_nil_r. repeat split.
  - destruct (scanField C docer (b, op) vf) as [[b1 op1]|e] eqn:E1; simpl; [|discriminate].
    intros E. apply IH in E.
    destruct (scanField_effect docer b op vf b1 op1 E1)
      as (-> & H1 & H2 & H3 & H4 & _ & _ & H5 & _).
    destruct E as (Hp & G1 & G2 & G3 & G4 & G5).
    rewrite Paths_SchemaFromType in Hp.
    repeat split; try congruence. rewrite G5, H5. now rewrite <- app_assoc.
Qed.

Lemma scanOperator_effect b op fac b' op' :
  scanOperator C (b, op) fac = Returned (b', op') ->
  Paths (o b') = Paths (o b)
  /\ OperationId op' = OperationId op /\ op_Summary op' = op_Summary op
  /\ op_Description op' = op_Description op /\ op_Deprecated op' = op_Deprecated op
  /\ map parameterShape (op_Parameters op')
     = map parameterShape (op_Parameters op) ++ flat_map expectedShapes (EachField (of_Type fac)).
Proof.
  unfold scanOperator, scanParameterOrRequestBody. cbn [fst snd].
  destruct (each (scanField C (RuntimeDoc (of_Type fac))) (EachField (of_Type fac)) (b, op))
    as [[b1 op1]|e] eqn:E; simpl; [|discriminate].
  apply each_scanField_effect in E. destruct E as (Hp & H1 & H2 & H3 & H4 & H5).
  destruct (IsLast fac); intros H.
  - injection H as H.
    destruct (scanResponse_effect b1 (set_Tags [tag (PkgPath (of_Type fac))] op1) fac)
      as (Hp' & G1 & G2 & G3 & G4 & _ & G6 & _).
    rewrite H in Hp', G1, G2, G3, G4, G6. simpl in *. repeat split; congruence.
  - injection H as <- <-. repeat split; assumption.
Qed.

Lemma each_scanOperator_effect ops :
  forall b op b' op',
    each (scanOperator C) ops (b, op) = Returned (b', op') ->
    Paths (o b') = Paths (o b)
    /\ OperationId op' = OperationId op /\ op_Summary op' = op_Summary op
    /\ op_Description op' = op_Description op /\ op_Deprecated op' = op_Deprecated op
    /\ map parameterShape (op_Parameters op')
       = map parameterShape (op_Parameters op) ++ expectedParameters ops.
Proof.
  unfold expectedParameters.
  induction ops as [|fac ops IH]; intros b op b' op'; cbn [each flat_map].
  - intros E. injection E as <- <-. rewrite app_nil_r. repeat split.
  - destruct (scanOperator C (b, op) fac) as [[b1 op1]|e] eqn:E1; simpl; [|discriminate].
    intros E. apply IH in E. apply scanOperator_effect in E1.
    destruct E1 as (Hp1 & H1 & H2 & H3 & H4 & H5).
    destruct E as (Hp & G1 & G2 & G3 & G4 & G5).
    repeat split; try congruence. rewrite G5, H5. now rewrite <- app_assoc.
Qed.

Lemma scan_success b r rh b' :
  NewRouteHandler r = inr rh ->
  scan C b r = Returned (b', None) ->
  exists b1 op,
    each (scanOperator C) (rh_Operators rh) (b, newOperation rh) = Returned (b1, op)
    /\ b' = set_o (AddOperation (ToLower (rh_Method rh)) (patchPath (rh_Path rh) op) op (o b1))
                  b1.
Proof.
  intros Hrh. unfold scan. rewrite Hrh.
  destruct (each (scanOperator C) (rh_Operators rh) (b, newOperation rh))
    as [[b1 op]|e]; simpl; [|discriminate].
  intros E. injection E as <-. now exists b1, op.
Qed.

(** X15. The parameters of the operation that [scan] records are, in
    order, those of the fields of all operators of the route: one for
    each field located in query, cookie, header or path, named by the
    display name of the field; a path parameter is always required, the
    others are required unless the field is flagged omitempty; fields
    with another location add none. *)
Theorem X15_parameters_in_field_order b r rh b' :
  NewRouteHandler r = inr rh ->
  scan C b r = Returned (b', None) ->
  exists op,
    operationAt (o b') (ToLower (rh_Method rh)) (patchPath (rh_Path rh) op) = Some op
    /\ map parameterShape (op_Parameters op) = expectedParameters (rh_Operators rh).
Proof.
  intros Hrh Hscan.
  destruct (scan_success b r rh b' Hrh Hscan) as (b1 & op & E & ->).
  exists op. split.
  - unfold operationAt, AddOperation. simpl.
    rewrite lookup_insert_eq. apply lookup_insert_eq.
  - apply each_scanOperator_effect in E. destruct E as (_ & _ & _ & _ & _ & E).
    exact E.
Qed.

(** X20. A successful [scan] records the operation under the lower-cased
    method and the translated path of the route, with the operation id,
    summary, description and deprecation flag of the route handler; the
    operations recorded under any other method or path are untouched. *)
Theorem X20_scan_records_operation b r rh b' :
  NewRouteHandler r = inr rh ->
  scan C b r = Returned (b', None) ->
  exists op,
    let method := ToLower (rh_Method rh) in
    let path := patchPath (rh_Path rh) op in
    operationAt (o b') method path = Some op
    /\ describes rh op
    /\ forall method' path',
         (method', path') <> (method, path) ->
         operationAt (o b') method' path' = operationAt (o b) method' path'.
Proof.
  intros Hrh Hscan.
  destruct (scan_success b r rh b' Hrh Hscan) as (b1 & op & E & ->).
  apply each_scanOperator_effect in E. destruct E as (Hp & H1 & H2 & H3 & H4 & _).
  exists op. cbv zeta. split; [|split].
  - unfold operationAt, AddOperation. simpl.
    rewrite lookup_insert_eq. apply lookup_insert_eq.
  - unfold describes. rewrite H1, H2, H3, H4. repeat split.
  - intros method' path' Hne. unfold operationAt, AddOperation. simpl. rewrite Hp.
    destruct (decide (path' = patchPath (rh_Path rh) op)) as [->|Hpath].
    + rewrite lookup_insert_eq.
      assert (Hm : ToLower (rh_Method rh) <> method') by congruence.
      rewrite lookup_insert_ne by exact Hm.
      destruct (Paths (o b) !! patchPath (rh_Path rh) op); [reflexivity|apply lookup_empty].
    + rewrite lookup_insert_ne by congruence. reflexivity.
Qed.

(** *** Builds that fail *)

Lemma each_panics_at {A S} (body : S -> A -> Outcome S) xs x ys st e :
  (forall st', each body xs st = Returned st' -> body st' x = Panicked e) ->
  each body (xs ++ x :: ys) st = bind (each body xs st) (fun _ => Panicked e).
Proof.
  intros H. rewrite each_app. apply bind_ext. intros st' E.
  cbn [each]. now rewrite (H st' E).
Qed.

(** X17. A field that has a location but whose codec cannot be resolved
    aborts the build with the error of the codec resolver: the build of a
    router with such a route never returns a document, and its panic is
    that error unless an earlier route, operator or field has panicked. *)
Theorem X17_unresolvable_codec fns before r after rh opsBefore fac opsAfter
        fieldsBefore vf fieldsAfter err :
  NewRouteHandler r = inr rh ->
  rh_Operators rh = opsBefore ++ fac :: opsAfter ->
  EachField (of_Type fac) = fieldsBefore ++ vf :: fieldsAfter ->
  locationOf vf <> EmptyString ->
  NewTransformer C (field_Type (field vf))
                 (gostrings.first (gostrings.Split1 (TagGet (field vf) "mime") ","))
  = inl err ->
  let build := FromRouter C (before ++ r :: after) fns in
  build
  = bind (each (scanRoute C) before (newScanner (defaultNaming C) fns))
      (fun b =>
         bind (each (scanOperator C) opsBefore (b, newOperation rh))
           (fun st =>
              bind (each (scanField C (RuntimeDoc (of_Type fac))) fieldsBefore st)
                (fun _ => Panicked err)))
  /\ exists e, build = Panicked e.
Proof.
  intros Hrh Hops Hfields Hloc Htf build.
  assert (Hfield : forall docer st, scanField C docer st vf = Panicked err).
  { intros docer [b op]. unfold scanField. unfold locationOf in Hloc.
    destruct (String.eqb_spec (fst (tagValueAndFlagsByTagString (TagGet (field vf) "in")))
                              EmptyString) as [E|_]; [contradiction|].
    now rewrite Htf. }
  assert (Heq : build
     = bind (each (scanRoute C) before (newScanner (defaultNaming C) fns))
         (fun b =>
            bind (each (scanOperator C) opsBefore (b, newOperation rh))
              (fun st =>
                 bind (each (scanField C (RuntimeDoc (of_Type fac))) fieldsBefore st)
                   (fun _ => Panicked err)))).
  { unfold build, FromRouter. rewrite each_app, bind_assoc.
    apply bind_ext. intros b _.
    cbn [each]. unfold scanRoute at 1. unfold scan. rewrite Hrh, Hops.
    rewrite each_app, !bind_assoc.
    apply bind_ext. intros [b1 op1] _.
    cbn [each]. unfold scanOperator at 1. unfold scanParameterOrRequestBody.
    rewrite Hfields. cbn [fst snd].
    rewrite (each_panics_at _ fieldsBefore vf fieldsAfter (b1, op1) err)
      by (intros; apply Hfield).
    rewrite !bind_assoc. apply bind_ext. intros st' _. reflexivity. }
  split; [exact Heq|].
  rewrite Heq. apply bind_panics. intros b. apply bind_panics. intros st.
  apply bind_panics. intros _. now exists err.
Qed.

(** X18. A route for which no route handler can be built aborts the
    build with the error of [NewRouteHandler]: the build never returns a
    document, and its panic is that error unless an earlier route has
    panicked. *)
Theorem X18_route_handler_error fns before r after err :
  NewRouteHandler r = inl err ->
  let build := FromRouter C (before ++ r :: after) fns in
  build = bind (each (scanRoute C) before (newScanner (defaultNaming C) fns))
               (fun _ => Panicked err)
  /\ exists e, build = Panicked e.
Proof.
  intros Hrh build.
  assert (Heq : build = bind (each (scanRoute C) before (newScanner (defaultNaming C) fns))
                             (fun _ => Panicked err)).
  { unfold build, FromRouter.
    rewrite (each_panics_at _ before r after _ err).
    - rewrite bind_assoc. apply bind_ext. intros b _. reflexivity.
    - intros b _. unfold scanRoute, scan. now rewrite Hrh. }
  split; [exact Heq|]. rewrite Heq. apply bind_panics. intros _. now exists err.
Qed.

(** X22. For a handler that declares a verb and no status code of its
    own, the document holds a response under the very status the
    dispatcher sends for a value of that handler that is not nil, has no
    capability and is wrapped without settings, on a request with that
    verb: 201 for POST and 200 otherwise. *)
Theorem X22_documented_status_is_dispatched (D : courierhttp.Collaborators)
        b op fac method x path :
  can_Method (of_Operator fac) = Some method ->
  method <> EmptyString ->
  can_ResponseStatusCode (of_Operator fac) = None ->
  courierhttp.val_WriteResponse x = None ->
  courierhttp.val_isError x = false ->
  courierhttp.val_StatusCode x = None ->
  let sent := courierhttp.statusCode
                (courierhttp.envelope
                   (courierhttp.WriteResponse D (courierhttp.Wrap (Some x) [])
                                              (courierhttp.mkRequest method path))) in
  sent = (if String.eqb method "POST" then 201 else 200)
  /\ is_Some (op_Responses (snd (scanResponse C b op fac)) !! sent).
Proof.
  intros Hm Hne Hs Hw He Hc sent.
  assert (Hsent : sent = if String.eqb method "POST" then 201 else 200).
  { unfold sent.
    rewrite (envelope_not_delegated D (courierhttp.Wrap (Some x) [])
               (courierhttp.mkRequest method path) Hw).
    change (courierhttp.statusCode
              (courierhttp.resolved D (courierhttp.Wrap (Some x) [])
                                    (courierhttp.mkRequest method path))
            = if String.eqb method "POST" then 201 else 200).
    rewrite resolved_statusCode. cbv zeta. simpl. rewrite He. simpl. rewrite Hc. simpl.
    reflexivity. }
  split; [exact Hsent|]. rewrite Hsent.
  unfold scanResponse. rewrite Hm, Hs.
  destruct (String.eqb_spec method EmptyString) as [|_]; [contradiction|].
  match goal with
  | |- context [let (_, _) := ?y in _] => destruct y as [b1 resp]
  end.
  apply scanResponseErrors_effect.
  simpl. unfold courierhttp.MethodPost, courierhttp.StatusCreated, courierhttp.StatusOK.
  rewrite lookup_insert_eq. eauto.
Qed.

End ScannerFurther.


Section FurtherExamples.
Import courierhttp samples.

Lemma X1_resolution_table_witness :
  statusCode (envelope (WriteResponse C0 (Wrap (Some (describer 0)) [WithStatusCode 202]) GET))
  = 200.
Proof.
  exact (proj1 (X1_resolution_table C0 (Wrap (Some (describer 0)) [WithStatusCode 202])
                  GET eq_refl)).
Defined.

Lemma X2_explicit_location_redirects_witness :
  trace (WriteResponse C0 (Wrap None [[CallSetLocation (Some "/next")]]) GET)
  = [HttpRedirect "/next" 204]
  /\ trace (WriteResponse C0 (Wrap (Some responder) [[CallSetLocation (Some "/next")]]) GET)
     = [Delegated].
Proof.
  split.
  - pose proof (X2_explicit_location_redirects C0
                  (Wrap None [[CallSetLocation (Some "/next")]]) GET "/next" eq_refl) as H.
    cbv zeta in H. simpl asResponseWriter in H. exact (proj1 (proj2 H)).
  - pose proof (X2_explicit_location_redirects C0
                  (Wrap (Some responder) [[CallSetLocation (Some "/next")]]) GET "/next"
                  eq_refl) as H.
    cbv zeta in H. simpl asResponseWriter in H. exact (proj1 H).
Defined.

Lemma X3_no_content_witness :
  trace (WriteResponse C0
           (Wrap (Some (plain "Item")) [WithStatusCode 204; WithContentType "text/plain"]) GET)
  = [WriteHeader 204].
Proof.
  exact (proj1 (X3_no_content C0
                  (Wrap (Some (plain "Item")) [WithStatusCode 204; WithContentType "text/plain"])
                  GET eq_refl eq_refl eq_refl)).
Defined.

Lemma X4_result_writes_itself_witness :
  trace (WriteResponse C0 (Wrap (Some export) []) GET) = [WriteHeader 200; Into].
Proof.
  exact (proj1 (X4_result_writes_itself C0 (Wrap (Some export) []) GET export None
                  eq_refl eq_refl eq_refl eq_refl ltac:(discriminate))).
Defined.

Lemma X5_reader_copied_then_closed_witness :
  trace (WriteResponse C0 (Wrap (Some brokenFile) []) GET) = [WriteHeader 200; Copy; Close]
  /\ returned (WriteResponse C0 (Wrap (Some brokenFile) []) GET) = Some "broken pipe".
Proof.
  exact (X5_reader_copied_then_closed C0 (Wrap (Some brokenFile) []) GET brokenFile
           (Some "broken pipe") eq_refl eq_refl eq_refl eq_refl eq_refl ltac:(discriminate)).
Defined.

Lemma X6_codec_body_witness :
  returned (WriteResponse Cfail (Wrap (Some (plain "Item")) [WithContentType "text/csv"]) GET)
  = Some "no codec"
  /\ trace (WriteResponse Cfail (Wrap (Some (plain "Item")) [WithContentType "text/csv"]) GET)
     = [HeaderSet "Content-Type" "text/csv"].
Proof.
  pose proof (X6_codec_body Cfail
                (Wrap (Some (plain "Item")) [WithContentType "text/csv"]) GET eq_refl) as H.
  cbv zeta in H. simpl NewTransformer in H.
  destruct H as (H1 & H2 & _).
  - intros y E. injection E as <-. split; reflexivity.
  - reflexivity.
  - discriminate.
  - split; [exact H1|exact H2].
Defined.

Lemma X7_headers_before_status_witness :
  (length (List.filter sendsStatus
             (trace (WriteResponse C0 (Wrap (Some brokenFile) [WithCookies [Some "a=1"]]) GET)))
   <= 1)%nat.
Proof.
  exact (proj1 (X7_headers_before_status C0
                  (Wrap (Some brokenFile) [WithCookies [Some "a=1"]]) GET eq_refl)).
Defined.

Lemma X8_metadata_headers_witness :
  List.filter isHeaderAssign
    (trace (WriteResponse C0 (Wrap (Some (plain "Item")) [WithMetadata "x-request-id" ["42"]])
                          GET))
  ≡ₚ [HeaderAssign "X-Request-Id" ["42"]].
Proof.
  pose proof (X8_metadata_headers C0
                (Wrap (Some (plain "Item")) [WithMetadata "x-request-id" ["42"]])
                GET eq_refl) as H.
  etransitivity; [exact H|]. vm_compute. reflexivity.
Defined.

Lemma X10_setters_commute_witness :
  Wrap (Some (plain "Item")) [WithStatusCode 201; WithContentType "text/plain"]
  = Wrap (Some (plain "Item")) [WithContentType "text/plain"; WithStatusCode 201].
Proof.
  exact (proj2 (X10_setters_commute (CallSetStatusCode 201) (CallSetContentType "text/plain")
                  eq_refl) (Some (plain "Item")) [] []).
Defined.

End FurtherExamples.

Section ScannerFurtherExamples.
Import courierhttp openapi samples.

Lemma X11_registry_first_wins_witness :
  schemasOf (fold_left (fun b reg => RegisterSchema (RefString b (fst reg)) (snd reg) b)
                       [("Cat", SchemaOf "a.Cat"); ("Pet", SchemaOf "a.Pet");
                        ("Cat", SchemaOf "b.Cat")]
                       sampleScanner) !! "Cat"
  = Some (SchemaOf "a.Cat").
Proof.
  rewrite X11_registry_first_wins; [reflexivity|].
  intros reg [<-|[<-|[<-|[]]]]; reflexivity.
Defined.

Lemma X13_tag_last_segment_witness : tag "github.com/octohelm/apis/org" = "org".
Proof.
  exact (proj2 (X13_tag_last_segment "org" eq_refl) "github.com/octohelm/apis").
Defined.

Lemma X14_tag_value_and_flags_witness :
  fst (tagValueAndFlagsByTagString "path,omitempty") = "path"
  /\ snd (tagValueAndFlagsByTagString "path,omitempty") !! "omitempty" = Some true.
Proof.
  destruct (proj2 (X14_tag_value_and_flags "path" eq_refl) "omitempty") as (H1 & H2).
  split; [exact H1|]. etransitivity; [exact (H2 "omitempty")|]. vm_compute. reflexivity.
Defined.

Lemma X15_parameters_in_field_order_witness :
  match scan S0 sampleScanner (getItem itemType listItems) with
  | Returned (b', None) =>
      exists op, operationAt (o b') "get" (patchPath "/items/:id" op) = Some op
                 /\ map parameterShape (op_Parameters op)
                    = [("path", "id", true); ("query", "limit", false)]
  | _ => False
  end.
Proof.
  destruct (scan S0 sampleScanner (getItem itemType listItems)) as [[b' [err|]]|e] eqn:E;
    try (vm_compute in E; discriminate E).
  destruct (X15_parameters_in_field_order S0 sampleScanner (getItem itemType listItems)
              (mkRouteHandler "GetItem" "Get an item" EmptyString false
                              [mkOperatorFactory itemType listItems true] "GET" "/items/:id")
              b' eq_refl E) as (op & H1 & H2).
  exists op. split; [exact H1|exact H2].
Defined.

Lemma X16_unknown_location_ignored_witness :
  scanField S0 None (sampleScanner, NewOperation "Upload") (fieldOf "File" [("in", "form")])
  = Returned (fst (SchemaFromType S0 "string" false sampleScanner), NewOperation "Upload").
Proof.
  apply (X16_unknown_location_ignored S0 None sampleScanner (NewOperation "Upload")
           (fieldOf "File" [("in", "form")])
           (mkTransformer ["application/json"] (fun _ => None)));
    [discriminate|reflexivity|reflexivity].
Defined.

Lemma X17_unresolvable_codec_witness :
  let t := mkStructType "example.com/apis/item"
             [fieldOf "Body" [("in", "body"); ("mime", "bogus")]] None in
  FromRouter S0 [getItem t listItems] [] = Panicked "unsupported mime".
Proof.
  cbv zeta.
  set (t := mkStructType _ _ _).
  pose proof (X17_unresolvable_codec S0 [] [] (getItem t listItems) []
                (mkRouteHandler "GetItem" "Get an item" EmptyString false
                                [mkOperatorFactory t listItems true] "GET" "/items/:id")
                [] (mkOperatorFactory t listItems true) []
                [] (fieldOf "Body" [("in", "body"); ("mime", "bogus")]) []
                "unsupported mime"
                eq_refl eq_refl eq_refl ltac:(discriminate) eq_refl) as H.
  cbv zeta in H. destruct H as (H & _).
  etransitivity; [exact H|]. reflexivity.
Defined.

Lemma X18_route_handler_error_witness :
  FromRouter S0 [mkRoute (inl "no operator")] [] = Panicked "no operator".
Proof.
  pose proof (X18_route_handler_error S0 [] [] (mkRoute (inl "no operator")) []
                "no operator" eq_refl) as H.
  cbv zeta in H. destruct H as (H & _).
  etransitivity; [exact H|]. reflexivity.
Defined.

Lemma X19_body_field_witness :
  (exists rb,
      scanField S0 (Some (fun _ => Some ["The item."; "Sent as JSON."]))
                (sampleScanner, NewOperation "PutItem") (fieldOf "Body" [("in", "body")])
      = Returned (fst (SchemaFromType S0 "string" false sampleScanner),
                  SetRequestBody rb (NewOperation "PutItem"))
      /\ rb_Content rb !! "application/json"
         = Some (mkMediaType
                   (Some (AllOf (SchemaOf "string")
                                (SchemaDescription
                                   (Join ["The item."; "Sent as JSON."] newline)))))
      /\ rb_Required rb = true)
  /\ exists rb,
      scanField S0 None
                (sampleScanner, NewOperation "PutItem") (fieldOf "Body" [("in", "body")])
      = Returned (fst (SchemaFromType S0 "string" false sampleScanner),
                  SetRequestBody rb (NewOperation "PutItem"))
      /\ rb_Content rb !! "application/json" = Some (mkMediaType (Some (SchemaOf "string")))
      /\ rb_Required rb = true.
Proof.
  split.
  - destruct (X19_body_field S0 (Some (fun _ => Some ["The item."; "Sent as JSON."]))
                sampleScanner (NewOperation "PutItem") (fieldOf "Body" [("in", "body")])
                (mkTransformer ["application/json"] (fun _ => None)) "application/json" []
                eq_refl eq_refl eq_refl) as (rb & H1 & H2 & _ & H4 & _).
    exists rb. split; [exact H1|]. split; [exact H2|exact H4].
  - destruct (X19_body_field S0 None
                sampleScanner (NewOperation "PutItem") (fieldOf "Body" [("in", "body")])
                (mkTransformer ["application/json"] (fun _ => None)) "application/json" []
                eq_refl eq_refl eq_refl) as (rb & H1 & H2 & _ & H4 & _).
    exists rb. split; [exact H1|]. split; [exact H2|exact H4].
Defined.

Lemma X20_scan_records_operation_witness :
  match scan S0 sampleScanner (getItem itemType listItems) with
  | Returned (b', None) =>
      exists op, operationAt (o b') "get" (patchPath "/items/:id" op) = Some op
                 /\ OperationId op = "GetItem" /\ op_Summary op = "Get an item"
                 /\ operationAt (o b') "post" "/items" = None
  | _ => False
  end.
Proof.
  destruct (scan S0 sampleScanner (getItem itemType listItems)) as [[b' [err|]]|e] eqn:E;
    try (vm_compute in E; discriminate E).
  destruct (X20_scan_records_operation S0 sampleScanner (getItem itemType listItems)
              (mkRouteHandler "GetItem" "Get an item" EmptyString false
                              [mkOperatorFactory itemType listItems true] "GET" "/items/:id")
              b' eq_refl E) as (op & H1 & (H2 & H3 & _) & H4).
  exists op. split; [exact H1|]. split; [exact H2|]. split; [exact H3|].
  rewrite (H4 "post" "/items"); [reflexivity|].
  intros H. injection H as H _. discriminate H.
Defined.

Lemma X21_patchPath_plain_path_witness :
  patchPath "/healthz" (NewOperation "Health") = "/healthz".
Proof. exact (X21_patchPath_plain_path "/healthz" (NewOperation "Health") eq_refl). Defined.

Lemma X22_documented_status_is_dispatched_witness :
  let fac := mkOperatorFactory itemType createItem true in
  statusCode (envelope (WriteResponse C0 (Wrap (Some (plain "Item")) []) (mkRequest "POST" "/items")))
  = 201
  /\ is_Some (op_Responses (snd (scanResponse S0 sampleScanner (NewOperation "CreateItem") fac))
              !! 201).
Proof.
  cbv zeta.
  exact (X22_documented_status_is_dispatched S0 C0 sampleScanner (NewOperation "CreateItem")
           (mkOperatorFactory itemType createItem true) "POST" (plain "Item") "/items"
           eq_refl ltac:(discriminate) eq_refl eq_refl eq_refl eq_refl).
Defined.

End ScannerFurtherExamples.
